(** * ghast: the rule engine of [analyzer/analyzer.py]

    A shallow embedding of the [Analyzer] class: the parsed workflow is a
    dynamically typed Python value, every operation that can raise returns a
    [result], loops are written with [for_in] and keep their [break] and
    [return] statements, and the regular expressions are matched by
    derivatives.

    Conventions of the embedding:
    - strings are ASCII texts; on such texts [\w], [\d] and [.] are the
      classes written in [Regex] below;
    - a [dict] is an association list in insertion order with strings as
      keys, looked up by its first binding (a Python dict has no duplicate
      keys);
    - scalars other than [None], booleans, integers and strings (floats,
      dates) behave like integers under every operation used here and are
      not given a constructor of their own;
    - the text of the diagnostics printed in verbose mode is not modelled,
      the evaluation of its arguments is (a missing [step['name']] raises). *)

From Stdlib Require Import Bool List Ascii String ZArith Lia.
Import ListNotations.

Local Open Scope string_scope.
Local Open Scope list_scope.

Set Implicit Arguments.
Set Warnings "-register-all".

(** ** Python values and exceptions *)

Inductive value : Type :=
| VNone : value
| VBool : bool -> value
| VInt : Z -> value
| VStr : string -> value
| VList : list value -> value
| VDict : list (string * value) -> value.

Inductive exn : Type :=
| KeyError
| TypeError
| AttributeError
| IndexError.

Inductive result (A : Type) : Type :=
| Ok : A -> result A
| Raise : exn -> result A.

Arguments Ok {A} _.
Arguments Raise {A} _.

Definition bind {A B : Type} (m : result A) (k : A -> result B) : result B :=
  match m with
  | Ok a => k a
  | Raise e => Raise e
  end.

Notation "x <- m ;; k" := (bind m (fun x => k))
  (at level 61, m at next level, right associativity).

Notation "m ;;; k" := (bind m (fun _ => k))
  (at level 61, right associativity).

(** ** Loops with [break] and [return] *)

Inductive flow (S R : Type) : Type :=
| Next : S -> flow S R      (* the body ran to its end *)
| Break : S -> flow S R     (* break *)
| Return : R -> flow S R.   (* return r *)

Arguments Next {S R} _.
Arguments Break {S R} _.
Arguments Return {S R} _.

Inductive loop_end (S R : Type) : Type :=
| Fell : S -> loop_end S R       (* the loop is over, execution goes on *)
| Returned : R -> loop_end S R.  (* the function returned from the loop *)

Arguments Fell {S R} _.
Arguments Returned {S R} _.

Fixpoint for_in {X S R : Type} (xs : list X)
    (body : X -> S -> result (flow S R)) (s : S) : result (loop_end S R) :=
  match xs with
  | [] => Ok (Fell s)
  | x :: rest =>
      match body x s with
      | Raise e => Raise e
      | Ok (Next s') => for_in rest body s'
      | Ok (Break s') => Ok (Fell s')
      | Ok (Return r) => Ok (Returned r)
      end
  end.

(** What an enclosing loop does with the end of an inner loop. *)
Definition inner {S R : Type} (e : loop_end S R) : flow S R :=
  match e with
  | Fell s => Next s
  | Returned r => Return r
  end.

(** [return passed] after a loop. *)
Definition finish {R : Type} (e : loop_end R R) : R :=
  match e with
  | Fell s => s
  | Returned r => r
  end.

(** ** Strings *)

Definition chars (s : string) : list ascii := list_ascii_of_string s.

Fixpoint starts_with (p s : list ascii) : bool :=
  match p, s with
  | [], _ => true
  | _ :: _, [] => false
  | a :: p', b :: s' => Ascii.eqb a b && starts_with p' s'
  end.

(** [p in s] for two strings. *)
Fixpoint substring_of (p s : list ascii) : bool :=
  starts_with p s ||
  match s with
  | [] => false
  | _ :: s' => substring_of p s'
  end.

(** [s[1:]] *)
Definition drop_first (s : string) : string :=
  match s with
  | EmptyString => EmptyString
  | String _ rest => rest
  end.

Definition in_strings (s : string) (l : list string) : bool :=
  existsb (String.eqb s) l.

(** ** Operations on values *)

Fixpoint lookup (k : string) (d : list (string * value)) : option value :=
  match d with
  | [] => None
  | (k', v) :: rest => if String.eqb k k' then Some v else lookup k rest
  end.

(** [v == "s"] *)
Definition eq_str (v : value) (s : string) : bool :=
  match v with
  | VStr t => String.eqb t s
  | _ => false
  end.

(** ["k" in c] *)
Definition contains (k : string) (c : value) : result bool :=
  match c with
  | VDict d => Ok (match lookup k d with Some _ => true | None => false end)
  | VList l => Ok (existsb (fun v => eq_str v k) l)
  | VStr s => Ok (substring_of (chars k) (chars s))
  | VNone | VBool _ | VInt _ => Raise TypeError
  end.

(** [v in l] and [v not in l] for a list [l] of strings. *)
Definition in_list (v : value) (l : list string) : bool :=
  existsb (eq_str v) l.

(** Indexing a sequence of length [n] by an integer. *)
Definition index_of (i : Z) (n : nat) : result nat :=
  if (0 <=? i)%Z && (i <? Z.of_nat n)%Z then Ok (Z.to_nat i)
  else if (i <? 0)%Z && (- Z.of_nat n <=? i)%Z then Ok (Z.to_nat (i + Z.of_nat n))
  else Raise IndexError.

Definition as_index (k : value) : option Z :=
  match k with
  | VInt i => Some i
  | VBool b => Some (if b then 1%Z else 0%Z)
  | _ => None
  end.

(** [c[k]] *)
Definition subscript (c k : value) : result value :=
  match c with
  | VDict d =>
      match k with
      | VStr s => match lookup s d with Some v => Ok v | None => Raise KeyError end
      | VNone | VBool _ | VInt _ => Raise KeyError
      | VList _ | VDict _ => Raise TypeError
      end
  | VList l =>
      match as_index k with
      | Some i => n <- index_of i (List.length l) ;;
                  match nth_error l n with Some v => Ok v | None => Raise IndexError end
      | None => Raise TypeError
      end
  | VStr s =>
      match as_index k with
      | Some i => n <- index_of i (String.length s) ;;
                  match String.get n s with
                  | Some a => Ok (VStr (String a EmptyString))
                  | None => Raise IndexError
                  end
      | None => Raise TypeError
      end
  | VNone | VBool _ | VInt _ => Raise TypeError
  end.

(** [c["k"]] *)
Definition getitem (c : value) (k : string) : result value :=
  subscript c (VStr k).

(** [for x in c] *)
Definition iter (c : value) : result (list value) :=
  match c with
  | VList l => Ok l
  | VDict d => Ok (map (fun kv => VStr (fst kv)) d)
  | VStr s => Ok (map (fun a => VStr (String a EmptyString)) (chars s))
  | VNone | VBool _ | VInt _ => Raise TypeError
  end.

(** [c.keys()] *)
Definition keys (c : value) : result (list value) :=
  match c with
  | VDict d => Ok (map (fun kv => VStr (fst kv)) d)
  | _ => Raise AttributeError
  end.

(** [all(f(x) for x in xs)]: the generator stops at the first element that
    decides. *)
Fixpoint all_of {X : Type} (f : X -> result bool) (xs : list X) : result bool :=
  match xs with
  | [] => Ok true
  | x :: rest => b <- f x ;; if b then all_of f rest else Ok false
  end.

(** ** Regular expressions

    [re.search] is used only for the truth value of its result, so a
    pattern is modelled by the language it denotes and matched with
    derivatives: [search r s] holds when some substring of [s] is in the
    language of [r]. *)

Module Regex.

Inductive regex : Type :=
| Never : regex                     (* matches nothing *)
| Empty : regex                     (* matches the empty string *)
| Class : (ascii -> bool) -> regex  (* one character of a class *)
| Seq : regex -> regex -> regex
| Or : regex -> regex -> regex
| Star : regex -> regex.

(** Derived forms: [r+], [r?], [r{n}] and a literal text. *)
Definition Plus (r : regex) : regex := Seq r (Star r).
Definition Opt (r : regex) : regex := Or r Empty.

Fixpoint Times (n : nat) (r : regex) : regex :=
  match n with
  | O => Empty
  | S n' => Seq r (Times n' r)
  end.

Definition Chr (a : ascii) : regex := Class (Ascii.eqb a).

Fixpoint Lit_chars (l : list ascii) : regex :=
  match l with
  | [] => Empty
  | a :: l' => Seq (Chr a) (Lit_chars l')
  end.

Definition Lit (s : string) : regex := Lit_chars (chars s).

(** Character classes, on ASCII. *)
Definition between (lo hi : nat) (a : ascii) : bool :=
  (lo <=? nat_of_ascii a)%nat && (nat_of_ascii a <=? hi)%nat.

Definition is_digit (a : ascii) : bool := between 48 57 a.              (* \d, 0-9 *)
Definition is_lower (a : ascii) : bool := between 97 122 a.
Definition is_upper (a : ascii) : bool := between 65 90 a.
Definition is_word (a : ascii) : bool :=                                (* \w *)
  is_lower a || is_upper a || is_digit a || Ascii.eqb a "_"%char.
Definition is_word_or_dash (a : ascii) : bool :=                        (* [\w-] *)
  is_word a || Ascii.eqb a "-"%char.
Definition is_hex (a : ascii) : bool := between 97 102 a || is_digit a. (* [a-f0-9] *)
Definition not_newline (a : ascii) : bool :=                            (* . *)
  negb (Nat.eqb (nat_of_ascii a) 10).

Definition Dot : regex := Class not_newline.

Fixpoint nullable (r : regex) : bool :=
  match r with
  | Never => false
  | Empty => true
  | Class _ => false
  | Seq r1 r2 => nullable r1 && nullable r2
  | Or r1 r2 => nullable r1 || nullable r2
  | Star _ => true
  end.

(** Constructors that drop the dead branches of a derivative. *)
Definition seq (r1 r2 : regex) : regex :=
  match r1 with
  | Never => Never
  | Empty => r2
  | _ => Seq r1 r2
  end.

Definition alt (r1 r2 : regex) : regex :=
  match r1, r2 with
  | Never, _ => r2
  | _, Never => r1
  | _, _ => Or r1 r2
  end.

Fixpoint deriv (a : ascii) (r : regex) : regex :=
  match r with
  | Never => Never
  | Empty => Never
  | Class p => if p a then Empty else Never
  | Seq r1 r2 =>
      if nullable r1 then alt (seq (deriv a r1) r2) (deriv a r2)
      else seq (deriv a r1) r2
  | Or r1 r2 => alt (deriv a r1) (deriv a r2)
  | Star r1 => seq (deriv a r1) (Star r1)
  end.

(** A match of [r] starts at the head of [s] ([re.match]). *)
Fixpoint match_here (r : regex) (s : list ascii) : bool :=
  nullable r ||
  match s with
  | [] => false
  | a :: s' => match_here (deriv a r) s'
  end.

(** A match of [r] starts somewhere in [s] ([re.search]). *)
Fixpoint search_chars (r : regex) (s : list ascii) : bool :=
  match_here r s ||
  match s with
  | [] => false
  | _ :: s' => search_chars r s'
  end.

(** The language of a pattern. *)
Inductive matches : regex -> list ascii -> Prop :=
| m_empty : matches Empty []
| m_class : forall (p : ascii -> bool) a, p a = true -> matches (Class p) [a]
| m_seq : forall r1 r2 s1 s2,
    matches r1 s1 -> matches r2 s2 -> matches (Seq r1 r2) (s1 ++ s2)
| m_or_l : forall r1 r2 s, matches r1 s -> matches (Or r1 r2) s
| m_or_r : forall r1 r2 s, matches r2 s -> matches (Or r1 r2) s
| m_star_nil : forall r, matches (Star r) []
| m_star_app : forall r s1 s2,
    matches r s1 -> matches (Star r) s2 -> matches (Star r) (s1 ++ s2).

End Regex.

Import Regex.

(** [bool(search(r, v))]: the subject must be a string. *)
Definition search (r : regex) (v : value) : result bool :=
  match v with
  | VStr s => Ok (search_chars r (chars s))
  | _ => Raise TypeError
  end.

(** [v\d+(\.\d+)?(\.\d+)?] *)
Definition VERSION_TAG : regex :=
  Seq (Chr "v") (Seq (Plus (Class is_digit))
    (Seq (Opt (Seq (Chr ".") (Plus (Class is_digit))))
         (Opt (Seq (Chr ".") (Plus (Class is_digit)))))).

(** [(v\d+(\.\d+)?(\.\d+)?|[a-f0-9]{40})] *)
Definition VERSION_OR_HASH : regex :=
  Or VERSION_TAG (Times 40 (Class is_hex)).

(** [([\w-]+)\/([\w-]+)@v\d+(\.\d+)?(\.\d+)?] *)
Definition ACTION_WITH_VERSION_REGEX : regex :=
  Seq (Plus (Class is_word_or_dash)) (Seq (Chr "/")
    (Seq (Plus (Class is_word_or_dash)) (Seq (Chr "@") VERSION_TAG))).

(** [\$\{\{.*github.+\}\}] *)
Definition DANGEROUS_GITHUB_CONTEXT_VARIABLE_REGEX : regex :=
  Seq (Lit "${{") (Seq (Star Dot) (Seq (Lit "github") (Seq (Plus Dot) (Lit "}}")))).

(** [actions\/cache@(v\d+(\.\d+)?(\.\d+)?|[a-f0-9]{40})] *)
Definition CACHE_ACTION_REGEX : regex :=
  Seq (Lit "actions/cache@") VERSION_OR_HASH.

(** [aws\-actions\/configure\-aws\-credentials@(v\d+(\.\d+)?(\.\d+)?|[a-f0-9]{40})] *)
Definition CONFIGURE_AWS_CREDS_ACTION_REGEX : regex :=
  Seq (Lit "aws-actions/configure-aws-credentials@") VERSION_OR_HASH.

(** [gh pr (A|B)] where A is [review.*--approve] and B is [create.*] *)
Definition GH_CLI_PR_APPROVAL_REGEX : regex :=
  Seq (Lit "gh pr ")
    (Or (Seq (Lit "review") (Seq (Star Dot) (Lit "--approve")))
        (Seq (Lit "create") (Star Dot))).

(** ** The analyzer *)

Inductive level : Type := FAIL | WARN.

Definition is_WARN (l : level) : bool :=
  match l with
  | WARN => true
  | FAIL => false
  end.

(** The attributes of an [Analyzer]. [jobs] is not set by [__init__]: it
    exists once [run_checks] has assigned it. *)
Record Analyzer : Type := {
  ignore_warnings : bool;
  ignore_checks : list string;
  verbose : bool;
  action : value;
  jobs : option value
}.

(** [self.checks], the same table for every analyzer. *)
Definition checks : list (string * level) :=
  [ ("_check_for_3p_actions_without_hash", FAIL);
    ("_check_for_allow_unsecure_commands", FAIL);
    ("_check_for_cache_action_usage", WARN);
    ("_check_for_dangerous_write_permissions", FAIL);
    ("_check_for_inline_script", WARN);
    ("_check_for_pull_request_target", FAIL);
    ("_check_for_script_injection", FAIL);
    ("_check_for_self_hosted_runners", WARN);
    ("_check_for_aws_configure_credentials_non_oidc", WARN);
    ("_check_for_pull_request_create_or_approve", FAIL) ].

Definition __init__ (ignore_checks : list string) (ignore_warnings verbose : bool)
    : Analyzer :=
  {| ignore_warnings := ignore_warnings;
     ignore_checks := ignore_checks;
     verbose := verbose;
     action := VDict [];
     jobs := None |}.

Definition set_action (self : Analyzer) (a : value) : Analyzer :=
  {| ignore_warnings := ignore_warnings self;
     ignore_checks := ignore_checks self;
     verbose := verbose self;
     action := a;
     jobs := jobs self |}.

Definition set_jobs (self : Analyzer) (j : value) : Analyzer :=
  {| ignore_warnings := ignore_warnings self;
     ignore_checks := ignore_checks self;
     verbose := verbose self;
     action := action self;
     jobs := Some j |}.

(** Reading [self.jobs]. *)
Definition self_jobs (self : Analyzer) : result value :=
  match jobs self with
  | Some j => Ok j
  | None => Raise AttributeError
  end.

(** The argument [step['name']] of a diagnostic, evaluated in verbose mode
    only. *)
Definition info_step_name (self : Analyzer) (step : value) : result unit :=
  if verbose self then getitem step "name" ;;; Ok tt else Ok tt.

(** The precondition gate of [run_checks]. *)
Definition _action_has_required_elements (self : Analyzer) : result bool :=
  let passed := true in
  present <- all_of (fun key => contains key (action self)) ["name"; "on"; "jobs"] ;;
  let passed := if negb present then false else passed in
  js <- self_jobs self ;;
  ks <- keys js ;;
  e <- for_in ks (fun job passed =>
         j <- subscript js job ;;
         has <- contains "steps" j ;;
         if negb has then Ok (Break false) else Ok (Next passed)) passed ;;
  Ok (finish e).

Definition _check_for_3p_actions_without_hash (self : Analyzer) : result bool :=
  let passed := true in
  js <- self_jobs self ;;
  ks <- keys js ;;
  e <- for_in ks (fun job passed =>
         j <- subscript js job ;;
         st <- getitem j "steps" ;;
         steps <- iter st ;;
         e <- for_in steps (fun step passed =>
                has <- contains "uses" step ;;
                if has then
                  uses <- getitem step "uses" ;;
                  found <- search ACTION_WITH_VERSION_REGEX uses ;;
                  if found then Ok (Break false) else Ok (Next passed)
                else Ok (Next passed)) passed ;;
         Ok (inner e)) passed ;;
  Ok (finish e).

Definition _check_for_inline_script (self : Analyzer) : result bool :=
  let passed := true in
  js <- self_jobs self ;;
  ks <- keys js ;;
  e <- for_in ks (fun job passed =>
         j <- subscript js job ;;
         st <- getitem j "steps" ;;
         steps <- iter st ;;
         e <- for_in steps (fun step passed =>
                has <- contains "run" step ;;
                if has then
                  (if verbose self then
                     named <- contains "name" step ;;
                     if named then getitem step "name" ;;; Ok tt else Ok tt
                   else Ok tt) ;;;
                  Ok (Next false)
                else Ok (Next passed)) passed ;;
         Ok (inner e)) passed ;;
  Ok (finish e).

Definition _check_for_script_injection (self : Analyzer) : result bool :=
  let passed := true in
  js <- self_jobs self ;;
  ks <- keys js ;;
  e <- for_in ks (fun job passed =>
         j <- subscript js job ;;
         st <- getitem j "steps" ;;
         steps <- iter st ;;
         e <- for_in steps (fun step passed =>
                has <- contains "run" step ;;
                if has then
                  script <- getitem step "run" ;;
                  variable <- search DANGEROUS_GITHUB_CONTEXT_VARIABLE_REGEX script ;;
                  if variable then Ok (Next false) else Ok (Next passed)
                else Ok (Next passed)) passed ;;
         Ok (inner e)) passed ;;
  Ok (finish e).

Definition _check_for_allow_unsecure_commands (self : Analyzer) : result bool :=
  let passed := true in
  js <- self_jobs self ;;
  ks <- keys js ;;
  e <- for_in ks (fun job passed =>
         j <- subscript js job ;;
         st <- getitem j "steps" ;;
         steps <- iter st ;;
         e <- for_in steps (fun step passed =>
                has <- contains "env" step ;;
                unsecure <- (if has then
                               env <- getitem step "env" ;;
                               contains "ACTIONS_ALLOW_UNSECURE_COMMANDS" env
                             else Ok false) ;;
                if unsecure then
                  info_step_name self step ;;;
                  Ok (Return false)
                else Ok (Next passed)) passed ;;
         Ok (inner e)) passed ;;
  Ok (finish e).

Definition _check_for_pull_request_target (self : Analyzer) : result bool :=
  let passed := true in
  event_triggers <- getitem (action self) "on" ;;
  match event_triggers with
  | VList _ | VDict _ =>
      found <- contains "pull_request_target" event_triggers ;;
      Ok (if found then false else passed)
  | VStr _ =>
      Ok (if eq_str event_triggers "pull_request_target" then false else passed)
  | VNone | VBool _ | VInt _ => Ok passed
  end.

Definition _check_for_cache_action_usage (self : Analyzer) : result bool :=
  let passed := true in
  js <- self_jobs self ;;
  ks <- keys js ;;
  e <- for_in ks (fun job passed =>
         j <- subscript js job ;;
         st <- getitem j "steps" ;;
         steps <- iter st ;;
         e <- for_in steps (fun step passed =>
                has <- contains "uses" step ;;
                if has then
                  uses <- getitem step "uses" ;;
                  found <- search CACHE_ACTION_REGEX uses ;;
                  if found then Ok (Next false) else Ok (Next passed)
                else Ok (Next passed)) passed ;;
         Ok (inner e)) passed ;;
  Ok (finish e).

Definition dangerous_scopes : list string :=
  ["contents"; "deployments"; "packages"; "actions"].

(** [for scope in dangerous_scopes: if scope in permissions and
    permissions[scope] == "write": ... return passed] *)
Definition write_scope_loop (permissions : value) (passed : bool)
    : result (loop_end bool bool) :=
  for_in dangerous_scopes (fun scope passed =>
    has <- contains scope permissions ;;
    write <- (if has then
                access <- getitem permissions scope ;;
                Ok (eq_str access "write")
              else Ok false) ;;
    if write then Ok (Return false) else Ok (Next passed)) passed.

Definition _check_for_dangerous_write_permissions (self : Analyzer) : result bool :=
  let passed := true in
  has <- contains "permissions" (action self) ;;
  e <- (if has then
          permissions <- getitem (action self) "permissions" ;;
          if eq_str permissions "write-all" then Ok (Returned false)
          else write_scope_loop permissions passed
        else Ok (Fell passed)) ;;
  match e with
  | Returned r => Ok r
  | Fell passed =>
      js <- self_jobs self ;;
      ks <- keys js ;;
      e <- for_in ks (fun job passed =>
             j <- subscript js job ;;
             has <- contains "permissions" j ;;
             if has then
               permissions <- getitem j "permissions" ;;
               let passed := if eq_str permissions "write-all" then false else passed in
               e <- write_scope_loop permissions passed ;;
               Ok (inner e)
             else Ok (Next passed)) passed ;;
      Ok (finish e)
  end.

Definition default_runners : list string :=
  [ "windows-latest"; "windows-2022"; "windows-2019";
    "ubuntu-latest"; "ubuntu-22.04"; "ubuntu-20.04";
    "macos-13"; "macos-13-xl"; "macos-latest"; "macos-12";
    "macos-latest-xl"; "macos-12-xl"; "macos-11" ].

(** [any(runner not in default_runners for runner in l)] *)
Definition any_non_default (l : list value) : bool :=
  existsb (fun runner => negb (in_list runner default_runners)) l.

(** The statements after a statement that may [break] or [return]. *)
Definition and_then {S R : Type} (f : flow S R) (k : S -> result (flow S R))
    : result (flow S R) :=
  match f with
  | Next s => k s
  | Break s => Ok (Break s)
  | Return r => Ok (Return r)
  end.

Definition _check_for_self_hosted_runners (self : Analyzer) : result bool :=
  let passed := true in
  js <- self_jobs self ;;
  ks <- keys js ;;
  e <- for_in ks (fun job passed =>
         j <- subscript js job ;;
         has_strategy <- contains "strategy" j ;;
         has_matrix <- (if has_strategy then
                          strategy <- getitem j "strategy" ;;
                          contains "matrix" strategy
                        else Ok false) ;;
         f <- (if has_matrix then
                 strategy <- getitem j "strategy" ;;
                 matrix <- getitem strategy "matrix" ;;
                 has_runner <- contains "runner" matrix ;;
                 if has_runner then
                   runner <- getitem matrix "runner" ;;
                   match runner with
                   | VList l =>
                       if any_non_default l then Ok (Break false) else Ok (Next passed)
                   | _ => Ok (Next passed)
                   end
                 else Ok (Next passed)
               else Ok (Next passed)) ;;
         and_then f (fun passed =>
           has_runs_on <- contains "runs-on" j ;;
           if has_runs_on then
             runs_on <- getitem j "runs-on" ;;
             match runs_on with
             | VList l =>
                 if any_non_default l then Ok (Return false) else Ok (Next passed)
             | VDict _ =>
                 has_group <- contains "group" runs_on ;;
                 if has_group then
                   group <- getitem runs_on "group" ;;
                   if negb (in_list group default_runners) then Ok (Break false)
                   else Ok (Next passed)
                 else Ok (Next passed)
             | VStr _ =>
                 if negb (in_list runs_on default_runners) then Ok (Break false)
                 else Ok (Next passed)
             | VNone | VBool _ | VInt _ => Ok (Next passed)
             end
           else Ok (Next passed))) passed ;;
  Ok (finish e).

Definition non_oidc_inputs : list string :=
  ["aws-access-key-id"; "web-identity-token-file"].

Definition _check_for_aws_configure_credentials_non_oidc (self : Analyzer)
    : result bool :=
  let passed := true in
  js <- self_jobs self ;;
  ks <- keys js ;;
  e <- for_in ks (fun job passed =>
         j <- subscript js job ;;
         st <- getitem j "steps" ;;
         steps <- iter st ;;
         e <- for_in steps (fun step (passed : bool) =>
                has <- contains "uses" step ;;
                if has then
                  uses <- getitem step "uses" ;;
                  found <- search CONFIGURE_AWS_CREDS_ACTION_REGEX uses ;;
                  if found then
                    inputs <- getitem step "with" ;;
                    names <- iter inputs ;;
                    (if existsb (fun input => in_list input non_oidc_inputs) names
                     then info_step_name self step
                     else Ok tt) ;;;
                    Ok (Next (if passed then false else passed))
                  else Ok (Next passed)
                else Ok (Next passed)) passed ;;
         Ok (inner e)) passed ;;
  Ok (finish e).

Definition _check_for_pull_request_create_or_approve (self : Analyzer)
    : result bool :=
  let passed := true in
  js <- self_jobs self ;;
  ks <- iter js ;;
  e <- for_in ks (fun job passed =>
         j <- subscript js job ;;
         st <- getitem j "steps" ;;
         steps <- iter st ;;
         e <- for_in steps (fun step passed =>
                has <- contains "run" step ;;
                if has then
                  script <- getitem step "run" ;;
                  found <- search GH_CLI_PR_APPROVAL_REGEX script ;;
                  if found then
                    info_step_name self step ;;;
                    Ok (Next false)
                  else Ok (Next passed)
                else Ok (Next passed)) passed ;;
         Ok (inner e)) passed ;;
  Ok (finish e).

(** [[*self.checks.keys()]] *)
Definition get_checks : list string := map fst checks.

(** [self.checks[check]["level"]] *)
Fixpoint level_in (check : string) (table : list (string * level)) : result level :=
  match table with
  | [] => Raise KeyError
  | (name, l) :: rest => if String.eqb check name then Ok l else level_in check rest
  end.

(** [Analyzer.__dict__]: the methods that [run_checks] looks up by name. *)
Definition Analyzer__dict__ : list (string * (Analyzer -> result bool)) :=
  [ ("_action_has_required_elements", _action_has_required_elements);
    ("_check_for_3p_actions_without_hash", _check_for_3p_actions_without_hash);
    ("_check_for_inline_script", _check_for_inline_script);
    ("_check_for_script_injection", _check_for_script_injection);
    ("_check_for_allow_unsecure_commands", _check_for_allow_unsecure_commands);
    ("_check_for_pull_request_target", _check_for_pull_request_target);
    ("_check_for_cache_action_usage", _check_for_cache_action_usage);
    ("_check_for_dangerous_write_permissions", _check_for_dangerous_write_permissions);
    ("_check_for_self_hosted_runners", _check_for_self_hosted_runners);
    ("_check_for_aws_configure_credentials_non_oidc",
       _check_for_aws_configure_credentials_non_oidc);
    ("_check_for_pull_request_create_or_approve",
       _check_for_pull_request_create_or_approve) ].

Fixpoint method_in (check : string) (d : list (string * (Analyzer -> result bool)))
    : option (Analyzer -> result bool) :=
  match d with
  | [] => None
  | (name, f) :: rest => if String.eqb check name then Some f else method_in check rest
  end.

(** [Analyzer.__dict__[check](self)] *)
Definition call (self : Analyzer) (check : string) : result bool :=
  match method_in check Analyzer__dict__ with
  | Some f => f self
  | None => Raise KeyError
  end.

(** The result of [run_checks]: the returned [passed_all_checks], and
    [fail_checks], the checks whose failure it reports. *)
Record verdict : Type := {
  passed_all_checks : bool;
  fail_checks : list string
}.

(** The loop over [self.checks.keys()]. Next to the verdict it keeps the
    names of the checks it has called, in order, also when a check raises:
    a check is skipped when it is not among them. *)
Fixpoint run_loop (self : Analyzer) (names : list string)
    (called : list string) (v : verdict) : list string * result verdict :=
  match names with
  | [] => (called, Ok v)
  | check :: rest =>
      match (if ignore_warnings self
             then l <- level_in check checks ;; Ok (is_WARN l)
             else Ok false) with
      | Raise e => (called, Raise e)
      | Ok true => run_loop self rest called v                       (* continue *)
      | Ok false =>
          if in_strings (drop_first check) (ignore_checks self)
          then run_loop self rest called v                           (* continue *)
          else
            match call self check with
            | Raise e => (called ++ [check], Raise e)
            | Ok true => run_loop self rest (called ++ [check]) v
            | Ok false =>
                run_loop self rest (called ++ [check])
                  {| passed_all_checks := false;
                     fail_checks := fail_checks v ++ [check] |}
            end
      end
  end.

(** [self.action = action; self.jobs = self.action["jobs"]] *)
Definition load (self : Analyzer) (document : value) : result Analyzer :=
  let self := set_action self document in
  js <- getitem (action self) "jobs" ;;
  Ok (set_jobs self js).

Definition run_checks_traced (self : Analyzer) (document : value)
    : list string * result verdict :=
  match load self document with
  | Raise e => ([], Raise e)
  | Ok self =>
      let v := {| passed_all_checks := true; fail_checks := [] |} in
      match _action_has_required_elements self with
      | Raise e => ([], Raise e)
      | Ok true => run_loop self get_checks [] v
      | Ok false => ([], Ok v)
      end
  end.

Definition run_checks (self : Analyzer) (document : value) : result verdict :=
  snd (run_checks_traced self document).

(** The checks that one call of [run_checks] evaluates. *)
Definition evaluated (self : Analyzer) (document : value) : list string :=
  fst (run_checks_traced self document).

(** * Vocabulary of the properties *)

(** ** The loop of [run_checks] *)

(** The check is registered with the level WARN. *)
Definition warn (check : string) : bool :=
  match level_in check checks with
  | Ok WARN => true
  | _ => false
  end.

(** The two [continue] tests of the loop. *)
Definition skips (self : Analyzer) (check : string) : bool :=
  (ignore_warnings self && warn check) ||
  in_strings (drop_first check) (ignore_checks self).

(** The check, when called, returns [False]. *)
Definition failed (self : Analyzer) (check : string) : bool :=
  match call self check with
  | Ok false => true
  | _ => false
  end.

(** The check, when called, returns and does not raise. *)
Definition returns (self : Analyzer) (check : string) : Prop :=
  exists b, call self check = Ok b.

(** The checks of [names] that are called and fail. *)
Definition failures (self : Analyzer) (names : list string) : list string :=
  filter (fun c => negb (skips self c) && failed self c) names.

(** [not l] *)
Definition is_nil (l : list string) : bool :=
  match l with
  | [] => true
  | _ :: _ => false
  end.

(** The verdict with which the loop starts. *)
Definition start : verdict := {| passed_all_checks := true; fail_checks := [] |}.

(** The verdict [v] after the failures [fs] have been appended. *)
Definition extend (v : verdict) (fs : list string) : verdict :=
  {| passed_all_checks := passed_all_checks v && is_nil fs;
     fail_checks := fail_checks v ++ fs |}.

(** The verdict of a run that reports the failures [fs]. *)
Definition reporting (fs : list string) : verdict :=
  {| passed_all_checks := is_nil fs; fail_checks := fs |}.

(** [fail_checks] without the check [x]. *)
Definition without (x : string) (l : list string) : list string :=
  filter (fun c => negb (String.eqb c x)) l.

(** The analyzer once [run_checks] has stored the document and its jobs. *)
Definition loaded (ign : list string) (iw vb : bool) (document js : value) : Analyzer :=
  {| ignore_warnings := iw;
     ignore_checks := ign;
     verbose := vb;
     action := document;
     jobs := Some js |}.

(** ** Shapes of the data model *)

(** The shape of [jobs] in the data model: a mapping whose values, the jobs,
    are mappings. *)
Definition is_mapping (v : value) : bool :=
  match v with
  | VDict _ => true
  | _ => false
  end.

(** [jobs] is present and is a mapping whose values are mappings. *)
Definition jobs_are_mappings (document : value) : bool :=
  match document with
  | VDict d =>
      match lookup "jobs" d with
      | Some (VDict js) => forallb (fun kj => is_mapping (snd kj)) js
      | _ => false
      end
  | _ => false
  end.

(** The shapes of [permissions] in the data model: absent, one of the
    literals for all scopes, or a mapping from scope to access level. *)
Definition permissions_shape (p : option value) : bool :=
  match p with
  | None => true
  | Some (VStr s) => String.eqb s "write-all" || String.eqb s "read-all"
  | Some (VDict _) => true
  | Some _ => false
  end.

(** The steps of a document: the items of [steps] of every job. *)
Definition steps_of_job (j : value) : list value :=
  match j with
  | VDict jd => match lookup "steps" jd with Some (VList l) => l | _ => [] end
  | _ => []
  end.

(** The steps of all the jobs of a document. *)
Definition steps_of (document : value) : list value :=
  match document with
  | VDict d =>
      match lookup "jobs" d with
      | Some (VDict jl) => flat_map (fun kj => steps_of_job (snd kj)) jl
      | _ => []
      end
  | _ => []
  end.

(** ** The trigger *)

(** The trigger specification includes an event: the specification is the
    event itself, a sequence that contains it, or a mapping that has it as
    a key. This definition follows the wording of the rule table, not the
    code. *)
Definition trigger_includes (event : string) (on : value) : Prop :=
  match on with
  | VStr s => s = event
  | VList l => In (VStr event) l
  | VDict d => In event (map fst d)
  | VNone | VBool _ | VInt _ => False
  end.

(** ** Long-lived credentials *)

(** What the rule table says the check detects: a step that uses the
    credentials action and whose [with] inputs include a long-lived
    credential. These definitions follow the wording of the table, not the
    code. *)
Definition uses_configure_aws_credentials (step : value) : bool :=
  match step with
  | VDict sd =>
      match lookup "uses" sd with
      | Some (VStr s) => search_chars CONFIGURE_AWS_CREDS_ACTION_REGEX (chars s)
      | _ => false
      end
  | _ => false
  end.

(** One of the inputs of the step is a long-lived credential. *)
Definition with_long_lived_credential (step : value) : bool :=
  match step with
  | VDict sd =>
      match lookup "with" sd with
      | Some (VDict inputs) => existsb (fun kv => in_strings (fst kv) non_oidc_inputs) inputs
      | _ => false
      end
  | _ => false
  end.

(** The step that the table describes. *)
Definition non_oidc_step (step : value) : bool :=
  uses_configure_aws_credentials step && with_long_lived_credential step.

(** ** Version tags and commit hashes *)

(** A version tag, [@v] and a digit, starts the text. *)
Definition version_tag_here (s : list ascii) : bool :=
  match s with
  | a :: b :: c :: _ => Ascii.eqb a "@" && Ascii.eqb b "v" && is_digit c
  | _ => false
  end.

(** A version tag [@vX], [@vX.Y] or [@vX.Y.Z] occurs in the text. *)
Fixpoint has_version_tag (s : list ascii) : bool :=
  version_tag_here s ||
  match s with
  | [] => false
  | _ :: t => has_version_tag t
  end.

(** The reference ends with [@] and the 40 hexadecimal digits of a commit. *)
Definition ends_with_sha (s : list ascii) : bool :=
  match skipn (List.length s - 41) s with
  | a :: sha => Ascii.eqb a "@" && Nat.eqb (List.length sha) 40 && forallb is_hex sha
  | [] => false
  end.

(** The reference is pinned by a commit hash and has no version tag. *)
Definition pinned_by_sha (s : string) : bool :=
  ends_with_sha (chars s) && negb (has_version_tag (chars s)).

(** A step whose [uses], when it has one, is pinned by a commit hash and
    carries no version tag. *)
Definition uses_pinned (step : value) : bool :=
  match step with
  | VDict sd =>
      match lookup "uses" sd with
      | None => true
      | Some (VStr s) => pinned_by_sha s
      | Some _ => false
      end
  | _ => false
  end.

(** The steps of the job are a sequence of pinned steps. *)
Definition job_pinned (j : value) : bool :=
  match j with
  | VDict jd =>
      match lookup "steps" jd with
      | Some (VList steps) => forallb uses_pinned steps
      | _ => false
      end
  | _ => false
  end.

(** Every step of every job of the document is pinned. *)
Definition every_uses_pinned (document : value) : bool :=
  match document with
  | VDict d =>
      match lookup "jobs" d with
      | Some (VDict jl) => forallb (fun kj => job_pinned (snd kj)) jl
      | _ => false
      end
  | _ => false
  end.

(** ** Sample documents *)

(** No [jobs]. *)
Definition document_without_jobs : value :=
  VDict [("name", VStr "ci"); ("on", VStr "push")].

(** No job, and the trigger as a string. *)
Definition document_pull_request_target : value :=
  VDict [("name", VStr "ci"); ("on", VStr "pull_request_target"); ("jobs", VDict [])].

(** The trigger in a sequence. *)
Definition document_trigger_sequence : value :=
  VDict [("name", VStr "ci");
         ("on", VList [VStr "push"; VStr "pull_request_target"]);
         ("jobs", VDict [("build", VDict [("steps", VList [])])])].

(** The trigger as a key of a mapping. *)
Definition document_trigger_mapping : value :=
  VDict [("name", VStr "ci");
         ("on", VDict [("pull_request_target", VDict [("branches", VList [VStr "main"])])]);
         ("jobs", VDict [("build", VDict [("steps", VList [])])])].

(** One inline script and nothing else to report. *)
Definition document_inline_script : value :=
  VDict [("name", VStr "ci"); ("on", VStr "push");
         ("jobs", VDict [("build", VDict [("runs-on", VStr "ubuntu-latest");
                                          ("steps", VList [VDict [("run", VStr "make test")]])])])].

(** [write-all] for the workflow, a read access in its job. *)
Definition document_write_all : value :=
  VDict [("name", VStr "release"); ("on", VStr "push");
         ("permissions", VStr "write-all");
         ("jobs", VDict [("publish", VDict [("permissions", VDict [("contents", VStr "read")]);
                                            ("steps", VList [])])])].

(** The credentials action with the inputs of OIDC only. *)
Definition document_oidc : value :=
  VDict [("name", VStr "deploy"); ("on", VStr "push");
         ("jobs", VDict [("deploy", VDict [("runs-on", VStr "ubuntu-latest");
            ("steps", VList [VDict [
               ("uses", VStr "aws-actions/configure-aws-credentials@e3dd6a429d7300a6a4c196c26e071d42e0343502");
               ("with", VDict [("role-to-assume", VStr "arn:aws:iam::123456789012:role/deploy");
                               ("aws-region", VStr "us-east-1")])]])])])].

(** The credentials action without [with]. *)
Definition document_aws_without_inputs : value :=
  VDict [("name", VStr "deploy"); ("on", VStr "push");
         ("jobs", VDict [("deploy", VDict [("runs-on", VStr "ubuntu-latest");
            ("steps", VList [VDict [
               ("uses", VStr "aws-actions/configure-aws-credentials@e3dd6a429d7300a6a4c196c26e071d42e0343502")]])])])].

(** Two actions pinned by their commit. *)
Definition document_pinned : value :=
  VDict [("name", VStr "ci"); ("on", VStr "push");
         ("jobs", VDict [("build", VDict [("runs-on", VStr "ubuntu-latest");
            ("steps", VList [
               VDict [("uses", VStr "actions/checkout@8e5e7e5ab8b370d6c329ec480221332ada57f0ab")];
               VDict [("name", VStr "lint");
                      ("uses", VStr "golangci/golangci-lint-action@3a919529898de77ec3da873e3063ca4b10e7f5cc")]])])])].

(** ** Scanning loops *)

(** What the body of a scanning loop does with a step or a job: on a hit it
    sets [passed] to [False] and goes on, breaks or returns; otherwise it
    leaves [passed] as it is. *)
Definition scan_flow (hit passed : bool) (f : flow bool bool) : Prop :=
  if hit then f = Next false \/ f = Break false \/ f = Return false
  else f = Next passed.

(** How a scanning loop ends, [hit] telling whether some item is a hit. *)
Definition scan_end (hit passed : bool) (e : loop_end bool bool) : Prop :=
  if hit then e = Fell false \/ e = Returned false else e = Fell passed.

(** ** Documents with jobs and steps *)

(** The keys of a dict are distinct. *)
Fixpoint distinct (l : list string) : bool :=
  match l with
  | [] => true
  | k :: rest => negb (in_strings k rest) && distinct rest
  end.

(** [jobs] is a mapping with distinct keys whose values satisfy [okj]. *)
Definition jobs_shape (okj : value -> bool) (document : value) : bool :=
  match document with
  | VDict d =>
      match lookup "jobs" d with
      | Some (VDict jl) =>
          distinct (map fst jl) && forallb (fun kj => okj (snd kj)) jl
      | _ => false
      end
  | _ => false
  end.

(** The job is a mapping whose [steps] is a sequence of steps that satisfy
    [ok]. *)
Definition job_steps_ok (ok : value -> bool) (j : value) : bool :=
  match j with
  | VDict jd =>
      match lookup "steps" jd with
      | Some (VList steps) => forallb ok steps
      | _ => false
      end
  | _ => false
  end.

Definition steps_shape (ok : value -> bool) (document : value) : bool :=
  jobs_shape (job_steps_ok ok) document.

(** The jobs of a document. *)
Definition jobs_of (document : value) : list value :=
  match document with
  | VDict d =>
      match lookup "jobs" d with
      | Some (VDict jl) => map snd jl
      | _ => []
      end
  | _ => []
  end.

(** The field [k] of a step or of a job. *)
Definition field (k : string) (v : value) : option value :=
  match v with
  | VDict d => lookup k d
  | _ => None
  end.

Definition has_field (k : string) (v : value) : bool :=
  match field k v with
  | Some _ => true
  | None => false
  end.

(** A mapping whose field [k], when present, is a string. *)
Definition text_or_absent (k : string) (v : value) : bool :=
  is_mapping v &&
  match field k v with
  | None | Some (VStr _) => true
  | Some _ => false
  end.

(** The field [k] is a string in which the pattern [r] is found. *)
Definition field_matches (r : regex) (k : string) (v : value) : bool :=
  match field k v with
  | Some (VStr s) => search_chars r (chars s)
  | _ => false
  end.

(** In verbose mode a step that is a hit has a [name]. *)
Definition named_if (vb : bool) (hit : value -> bool) (step : value) : bool :=
  negb vb || negb (hit step) || has_field "name" step.

(** The [env] of the step is a mapping that has the key
    [ACTIONS_ALLOW_UNSECURE_COMMANDS]. *)
Definition unsecure_env (step : value) : bool :=
  match field "env" step with
  | Some (VDict env) =>
      match lookup "ACTIONS_ALLOW_UNSECURE_COMMANDS" env with
      | Some _ => true
      | None => false
      end
  | _ => false
  end.

(** A mapping whose [env], when present, is a mapping. *)
Definition env_ok (step : value) : bool :=
  is_mapping step &&
  match field "env" step with
  | None | Some (VDict _) => true
  | Some _ => false
  end.

(** A step for the credentials check: [uses] is a string when present, and
    a step that uses the credentials action has a mapping under [with]
    and, in verbose mode and with a long-lived credential, a [name]. *)
Definition credentials_step_ok (vb : bool) (step : value) : bool :=
  text_or_absent "uses" step &&
  (negb (uses_configure_aws_credentials step) ||
   (match field "with" step with
    | Some (VDict _) => true
    | _ => false
    end &&
    named_if vb with_long_lived_credential step)).

(** ** Permissions and runners *)

(** The permissions grant write access to all scopes or to one of the
    dangerous scopes. *)
Definition grants_dangerous_write (p : option value) : bool :=
  match p with
  | Some (VStr s) => String.eqb s "write-all"
  | Some (VDict pd) =>
      existsb (fun scope =>
                 match lookup scope pd with
                 | Some access => eq_str access "write"
                 | None => false
                 end) dangerous_scopes
  | _ => false
  end.

(** A job for the permissions check: a mapping whose [permissions] has a
    shape of the data model. *)
Definition job_permissions_ok (j : value) : bool :=
  is_mapping j && permissions_shape (field "permissions" j).

(** A job for the runners check: a mapping whose [strategy], when present,
    is a mapping whose [matrix], when present, is a mapping. *)
Definition job_strategy_ok (j : value) : bool :=
  is_mapping j &&
  match field "strategy" j with
  | None => true
  | Some (VDict sd) =>
      match lookup "matrix" sd with
      | None | Some (VDict _) => true
      | Some _ => false
      end
  | Some _ => false
  end.

(** [strategy.matrix.runner] of a job. *)
Definition matrix_runner (j : value) : option value :=
  match field "strategy" j with
  | Some (VDict sd) =>
      match lookup "matrix" sd with
      | Some (VDict md) => lookup "runner" md
      | _ => None
      end
  | _ => None
  end.

(** The matrix of the job lists a runner that is not a default runner. *)
Definition non_default_matrix (j : value) : bool :=
  match matrix_runner j with
  | Some (VList l) => any_non_default l
  | _ => false
  end.

(** [runs-on] names a runner, or a group, that is not a default runner. *)
Definition non_default_runs_on (j : value) : bool :=
  match field "runs-on" j with
  | Some (VStr s) => negb (in_strings s default_runners)
  | Some (VList l) => any_non_default l
  | Some (VDict rd) =>
      match lookup "group" rd with
      | Some group => negb (in_list group default_runners)
      | None => false
      end
  | _ => false
  end.

(** A job without [steps]. *)
Definition lacks_steps (j : value) : bool := negb (has_field "steps" j).

(** ** More sample documents *)

(** A step that creates a pull request. *)
Definition document_pull_request_create : value :=
  VDict [("name", VStr "release"); ("on", VStr "push");
         ("jobs", VDict [("open", VDict [("runs-on", VStr "ubuntu-latest");
            ("steps", VList [VDict [("name", VStr "open pull request");
                                    ("run", VStr "gh pr create --fill")]])])])].

(** A step that allows unsecure commands. *)
Definition document_unsecure_commands : value :=
  VDict [("name", VStr "ci"); ("on", VStr "push");
         ("jobs", VDict [("build", VDict [("runs-on", VStr "ubuntu-latest");
            ("steps", VList [VDict [("name", VStr "build");
                                    ("env", VDict [("ACTIONS_ALLOW_UNSECURE_COMMANDS", VBool true)]);
                                    ("run", VStr "make")]])])])].

(** Write access to a dangerous scope in a job. *)
Definition document_job_write : value :=
  VDict [("name", VStr "release"); ("on", VStr "push");
         ("permissions", VStr "read-all");
         ("jobs", VDict [("test", VDict [("steps", VList [])]);
                         ("publish", VDict [("permissions", VDict [("packages", VStr "write")]);
                                            ("steps", VList [])])])].

(** A self-hosted runner in the matrix of a job. *)
Definition document_self_hosted : value :=
  VDict [("name", VStr "ci"); ("on", VStr "push");
         ("jobs", VDict [("build", VDict [
            ("strategy", VDict [("matrix", VDict [("runner", VList [VStr "ubuntu-latest"; VStr "gpu-box"])])]);
            ("runs-on", VStr "ubuntu-latest");
            ("steps", VList [])])])].

(** A workflow without [name], with the [pull_request_target] trigger. *)
Definition document_without_name : value :=
  VDict [("on", VStr "pull_request_target");
         ("jobs", VDict [("build", VDict [("steps", VList [VDict [("run", VStr "make")]])])])].

(** ** Settings *)

(** The names that suppress the checks of level WARN. *)
Definition warning_names : list string :=
  map drop_first (filter warn get_checks).

(** [jobs] is present in the document and is a mapping. *)
Definition jobs_mapping (document : value) : bool :=
  match field "jobs" document with
  | Some (VDict _) => true
  | _ => false
  end.

(** The exception of a document whose [jobs] is not a mapping. *)
Definition jobs_error (document : value) : exn :=
  match document with
  | VDict d =>
      match lookup "jobs" d with
      | None => KeyError
      | Some _ => AttributeError
      end
  | _ => TypeError
  end.

(** A step that allows unsecure commands and has no [name]. *)
Definition document_unsecure_unnamed : value :=
  VDict [("name", VStr "ci"); ("on", VStr "push");
         ("jobs", VDict [("build", VDict [("runs-on", VStr "ubuntu-latest");
            ("steps", VList [VDict [("env", VDict [("ACTIONS_ALLOW_UNSECURE_COMMANDS", VStr "true")]);
                                    ("run", VStr "make")]])])])].

(** ** Texts in which the patterns are found *)

(** [owner/repo@vN] occurs in the text: a character of an owner, a slash,
    the characters of a repository, and [@v] with a digit. *)
Definition version_reference (s : list ascii) : Prop :=
  exists p o repo d t,
    s = p ++ o :: "/"%char :: repo ++ "@"%char :: "v"%char :: d :: t /\
    is_word_or_dash o = true /\
    repo <> [] /\ forallb is_word_or_dash repo = true /\
    is_digit d = true.

(** The text starts with [v] and a digit, or with 40 hexadecimal digits. *)
Definition version_or_hash_start (s : list ascii) : Prop :=
  (exists d t, s = "v"%char :: d :: t /\ is_digit d = true) \/
  (exists h t, s = h ++ t /\ List.length h = 40 /\ forallb is_hex h = true).

(** The action [name] occurs in the text, followed by [@] and a version or
    a hash. *)
Definition action_reference (name : string) (s : list ascii) : Prop :=
  exists p t, s = p ++ chars name ++ "@"%char :: t /\ version_or_hash_start t.

(** An expression with [github] in it occurs in the text, on one line,
    with at least one character between [github] and the closing braces. *)
Definition github_expression (s : list ascii) : Prop :=
  exists p a b t,
    s = p ++ chars "${{" ++ a ++ chars "github" ++ b ++ chars "}}" ++ t /\
    forallb not_newline a = true /\
    b <> [] /\ forallb not_newline b = true.

(** The command that creates a pull request occurs in the text, or the
    command that reviews one with [--approve] later on the line. *)
Definition pull_request_command (s : list ascii) : Prop :=
  (exists p t, s = p ++ chars "gh pr create" ++ t) \/
  (exists p a t,
     s = p ++ chars "gh pr review" ++ a ++ chars "--approve" ++ t /\
     forallb not_newline a = true).

(** ** Well-formed documents *)

(** A step of the data model: a mapping whose [uses] and [run] are strings,
    whose [env] is a mapping, and whose [with] is a mapping when the step
    uses the credentials action. *)
Definition step_well_formed (step : value) : bool :=
  text_or_absent "uses" step && text_or_absent "run" step &&
  env_ok step && credentials_step_ok false step.

(** A job of the data model. *)
Definition job_well_formed (j : value) : bool :=
  job_steps_ok step_well_formed j && job_permissions_ok j && job_strategy_ok j.

(** A document of the data model: its jobs are well formed and its
    [permissions] has one of the shapes. *)
Definition well_formed (document : value) : bool :=
  jobs_shape job_well_formed document &&
  permissions_shape (field "permissions" document).

(** * Lemmas *)

Unset Implicit Arguments.

(** ** The patterns on sample texts *)

Example version_tag_is_found :
  search ACTION_WITH_VERSION_REGEX (VStr "actions/checkout@v3") = Ok true /\
  search ACTION_WITH_VERSION_REGEX
    (VStr "actions/checkout@8e5e7e5ab8b370d6c329ec480221332ada57f0ab") = Ok false /\
  search ACTION_WITH_VERSION_REGEX (VInt 3) = Raise TypeError.
Proof. repeat split; vm_compute; reflexivity. Qed.

Example cache_action_is_found :
  search CACHE_ACTION_REGEX (VStr "actions/cache@v3.2.1") = Ok true /\
  search CACHE_ACTION_REGEX
    (VStr "actions/cache@8e5e7e5ab8b370d6c329ec480221332ada57f0ab") = Ok true /\
  search CACHE_ACTION_REGEX
    (VStr "actions/cache@8e5e7e5ab8b370d6c329ec480221332ada57f0a") = Ok false.
Proof. repeat split; vm_compute; reflexivity. Qed.

Example github_context_is_found :
  search DANGEROUS_GITHUB_CONTEXT_VARIABLE_REGEX
    (VStr "echo ${{ github.event.issue.title }}") = Ok true /\
  search DANGEROUS_GITHUB_CONTEXT_VARIABLE_REGEX (VStr "echo ${{ github}}") = Ok false /\
  search DANGEROUS_GITHUB_CONTEXT_VARIABLE_REGEX (VStr "echo ${{ secrets.TOKEN }}") = Ok false.
Proof. repeat split; vm_compute; reflexivity. Qed.

Example pull_request_command_is_found :
  search GH_CLI_PR_APPROVAL_REGEX (VStr "gh pr review 12 --approve") = Ok true /\
  search GH_CLI_PR_APPROVAL_REGEX (VStr "gh pr review 12 --comment") = Ok false /\
  search GH_CLI_PR_APPROVAL_REGEX (VStr "gh pr create --fill") = Ok true.
Proof. repeat split; vm_compute; reflexivity. Qed.

(** ** The monad and the loops *)

Lemma bind_ok {A B : Type} (m : result A) (k : A -> result B) (b : B) :
  bind m k = Ok b -> exists a, m = Ok a /\ k a = Ok b.
Proof.
  destruct m as [a | e]; simpl; intro H.
  - exists a. split; [reflexivity | exact H].
  - discriminate H.
Qed.

(** A body that neither breaks, returns nor changes the state leaves the
    loop at its end with the state it started from. *)
Lemma for_in_all_next {X S R : Type} (xs : list X)
    (body : X -> S -> result (flow S R)) (s : S) :
  (forall x, In x xs -> body x s = Ok (Next s)) ->
  for_in xs body s = Ok (Fell s).
Proof.
  induction xs as [| x rest IH]; intro H; simpl.
  - reflexivity.
  - rewrite (H x (or_introl eq_refl)). apply IH.
    intros y Hy. apply H. right. exact Hy.
Qed.

Lemma filter_none {X : Type} (f : X -> bool) (l : list X) :
  (forall x, In x l -> f x = false) -> filter f l = [].
Proof.
  induction l as [| x rest IH]; intro H; cbn.
  - reflexivity.
  - rewrite (H x (or_introl eq_refl)). apply IH.
    intros y Hy. apply H. right. exact Hy.
Qed.

(** ** Dictionaries *)

Lemma lookup_key_in (k : string) (d : list (string * value)) :
  In k (map fst d) -> exists v, lookup k d = Some v /\ In (k, v) d.
Proof.
  induction d as [| [k' v'] rest IH]; simpl; intro H.
  - contradiction.
  - destruct (String.eqb k k') eqn:E.
    + apply String.eqb_eq in E. subst k'. exists v'. split; [reflexivity | now left].
    + destruct H as [H | H].
      * simpl in H. subst k'. rewrite String.eqb_refl in E. discriminate E.
      * destruct (IH H) as [v [Hv Hin]]. exists v. split; [exact Hv | now right].
Qed.

Lemma in_strings_In (s : string) (l : list string) :
  in_strings s l = true <-> In s l.
Proof.
  unfold in_strings. rewrite existsb_exists. split.
  - intros [x [Hin E]]. apply String.eqb_eq in E. subst x. exact Hin.
  - intro H. exists s. split; [exact H | apply String.eqb_refl].
Qed.

(** Only a dict has an item under a string key. *)
Lemma getitem_ok (c : value) (k : string) (v : value) :
  getitem c k = Ok v -> exists d, c = VDict d /\ lookup k d = Some v.
Proof.
  unfold getitem, subscript.
  destruct c as [| b | z | s | l | d]; simpl; try discriminate.
  intro H. exists d. split; [reflexivity |].
  destruct (lookup k d); [congruence | discriminate].
Qed.

(** ** Loading a document *)

Lemma load_ok (self self' : Analyzer) (document : value) :
  load self document = Ok self' ->
  exists d js, document = VDict d /\ lookup "jobs" d = Some js /\
    self' = set_jobs (set_action self document) js.
Proof.
  unfold load. intro H. apply bind_ok in H. destruct H as [js [Hjs H]].
  simpl in Hjs. apply getitem_ok in Hjs. destruct Hjs as [d [Hd Hl]].
  exists d, js. repeat split; [exact Hd | exact Hl | congruence].
Qed.

(** ** The loop of [run_checks] *)

Lemma registered_level (c : string) :
  In c get_checks -> exists l, level_in c checks = Ok l.
Proof.
  intro H. simpl in H.
  repeat (destruct H as [H | H]; [subst c; eexists; reflexivity |]).
  contradiction.
Qed.

Lemma run_loop_cons (self : Analyzer) (c : string) (rest called : list string)
    (v : verdict) :
  In c get_checks ->
  run_loop self (c :: rest) called v =
    if skips self c then run_loop self rest called v
    else match call self c with
         | Raise e => (called ++ [c], Raise e)
         | Ok true => run_loop self rest (called ++ [c]) v
         | Ok false => run_loop self rest (called ++ [c]) (extend v [c])
         end.
Proof.
  intro H. destruct (registered_level c H) as [l Hl].
  unfold skips, warn. cbn [run_loop]. rewrite Hl.
  destruct (ignore_warnings self); cbn [bind andb orb].
  - destruct l; cbn [is_WARN orb].
    + destruct (in_strings (drop_first c) (ignore_checks self)); [reflexivity |].
      destruct (call self c) as [[|] | e]; try reflexivity.
      unfold extend. destruct v as [p f]. cbn. now rewrite andb_false_r.
    + reflexivity.
  - destruct (in_strings (drop_first c) (ignore_checks self)); [reflexivity |].
    destruct (call self c) as [[|] | e]; try reflexivity.
    unfold extend. destruct v as [p f]. cbn. now rewrite andb_false_r.
Qed.

Lemma extend_extend (v : verdict) (a b : list string) :
  extend (extend v a) b = extend v (a ++ b).
Proof.
  unfold extend. cbn. f_equal.
  - destruct a; cbn; [now rewrite andb_true_r | now rewrite andb_false_r].
  - now rewrite app_assoc.
Qed.

Lemma extend_nil (v : verdict) : extend v [] = v.
Proof.
  destruct v as [p f]. unfold extend. cbn.
  now rewrite andb_true_r, app_nil_r.
Qed.

(** When every check that is called returns, the loop ends with the
    failures of the called checks. *)
Lemma run_loop_returns (self : Analyzer) (names called : list string) (v : verdict) :
  incl names get_checks ->
  (forall c, In c names -> skips self c = false -> returns self c) ->
  snd (run_loop self names called v) = Ok (extend v (failures self names)).
Proof.
  revert called v. induction names as [| c rest IH]; intros called v Hreg Hret.
  - cbn. now rewrite extend_nil.
  - assert (Hc : In c get_checks) by (apply Hreg; now left).
    assert (Hreg' : incl rest get_checks) by (intros x Hx; apply Hreg; now right).
    assert (Hret' : forall x, In x rest -> skips self x = false -> returns self x)
      by (intros x Hx; apply Hret; now right).
    rewrite (run_loop_cons self c rest called v Hc).
    unfold failures. cbn [filter]. fold (failures self rest).
    destruct (skips self c) eqn:Es; cbn [negb andb].
    + apply IH; assumption.
    + destruct (Hret c (or_introl eq_refl) Es) as [b Hb].
      unfold failed. rewrite Hb. destruct b.
      * apply IH; assumption.
      * rewrite (IH _ _ Hreg' Hret'). rewrite extend_extend. reflexivity.
Qed.

(** It has then called every check that it does not skip. *)
Lemma run_loop_trace (self : Analyzer) (names called : list string) (v : verdict) :
  incl names get_checks ->
  (forall c, In c names -> skips self c = false -> returns self c) ->
  fst (run_loop self names called v) =
    called ++ filter (fun c => negb (skips self c)) names.
Proof.
  revert called v. induction names as [| c rest IH]; intros called v Hreg Hret.
  - cbn. now rewrite app_nil_r.
  - assert (Hc : In c get_checks) by (apply Hreg; now left).
    assert (Hreg' : incl rest get_checks) by (intros x Hx; apply Hreg; now right).
    assert (Hret' : forall x, In x rest -> skips self x = false -> returns self x)
      by (intros x Hx; apply Hret; now right).
    rewrite (run_loop_cons self c rest called v Hc). cbn [filter].
    destruct (skips self c) eqn:Es; cbn [negb].
    + apply IH; assumption.
    + destruct (Hret c (or_introl eq_refl) Es) as [b Hb]. rewrite Hb.
      destruct b; rewrite (IH _ _ Hreg' Hret'), <- app_assoc; reflexivity.
Qed.

(** A loop that ends has called only checks that return. *)
Lemma run_loop_ended (self : Analyzer) (names called : list string) (v v' : verdict) :
  incl names get_checks ->
  snd (run_loop self names called v) = Ok v' ->
  forall c, In c names -> skips self c = false -> returns self c.
Proof.
  revert called v. induction names as [| c rest IH]; intros called v Hreg Hrun x Hx Hs.
  - contradiction.
  - assert (Hc : In c get_checks) by (apply Hreg; now left).
    assert (Hreg' : incl rest get_checks) by (intros y Hy; apply Hreg; now right).
    rewrite (run_loop_cons self c rest called v Hc) in Hrun.
    destruct (skips self c) eqn:Es.
    + destruct Hx as [Hx | Hx]; [subst x; congruence |].
      exact (IH _ _ Hreg' Hrun x Hx Hs).
    + destruct (call self c) as [b | e] eqn:Ec; [| discriminate Hrun].
      destruct Hx as [Hx | Hx].
      * subst x. exists b. exact Ec.
      * destruct b; exact (IH _ _ Hreg' Hrun x Hx Hs).
Qed.

(** Every check in the trace of the loop passed both [continue] tests. *)
Lemma run_loop_called (self : Analyzer) (names called : list string) (v : verdict)
    (c : string) :
  In c (fst (run_loop self names called v)) ->
  In c called \/
  (In c names /\ in_strings (drop_first c) (ignore_checks self) = false /\
   (ignore_warnings self = true -> level_in c checks = Ok FAIL)).
Proof.
  revert called v. induction names as [| n rest IH]; intros called v H.
  - left. exact H.
  - cbn [run_loop] in H.
    assert (Hskip : forall w, In c (fst (run_loop self rest called w)) ->
              In c called \/
              (In c (n :: rest) /\ in_strings (drop_first c) (ignore_checks self) = false /\
               (ignore_warnings self = true -> level_in c checks = Ok FAIL))).
    { intros w Hw. destruct (IH _ _ Hw) as [Hc | [Hc Hp]]; [now left |].
      right. split; [now right | exact Hp]. }
    assert (Hcall : forall w, in_strings (drop_first n) (ignore_checks self) = false ->
              (ignore_warnings self = true -> level_in n checks = Ok FAIL) ->
              In c (fst (run_loop self rest (called ++ [n]) w)) ->
              In c called \/
              (In c (n :: rest) /\ in_strings (drop_first c) (ignore_checks self) = false /\
               (ignore_warnings self = true -> level_in c checks = Ok FAIL))).
    { intros w Hi Hl Hw. destruct (IH _ _ Hw) as [Hc | [Hc Hp]].
      - apply in_app_or in Hc. destruct Hc as [Hc | [Hc | []]]; [now left |].
        subst c. right. repeat split; [now left | exact Hi | exact Hl].
      - right. split; [now right | exact Hp]. }
    destruct (ignore_warnings self) eqn:Ew; cbn [bind] in H.
    + destruct (level_in n checks) as [[|] | e] eqn:El; cbn [bind is_WARN] in H.
      * destruct (in_strings (drop_first n) (ignore_checks self)) eqn:Ei;
          [exact (Hskip _ H) |].
        destruct (call self n) as [[|] | e]; cbn [fst] in H.
        -- exact (Hcall _ eq_refl (fun _ => eq_refl) H).
        -- exact (Hcall _ eq_refl (fun _ => eq_refl) H).
        -- apply in_app_or in H. destruct H as [H | [H | []]]; [now left |].
           subst c. right. repeat split; [now left | exact Ei | intros _; exact El].
      * exact (Hskip _ H).
      * left. exact H.
    + destruct (in_strings (drop_first n) (ignore_checks self)) eqn:Ei;
        [exact (Hskip _ H) |].
      destruct (call self n) as [[|] | e]; cbn [fst] in H.
      * exact (Hcall _ eq_refl (fun X => match Bool.diff_false_true X with end) H).
      * exact (Hcall _ eq_refl (fun X => match Bool.diff_false_true X with end) H).
      * apply in_app_or in H. destruct H as [H | [H | []]]; [now left |].
        subst c. right. repeat split; [now left | exact Ei | intro X; discriminate X].
Qed.

(** The checks read the document and the verbosity, not the suppression
    settings. *)
Lemma call_same_document (self self' : Analyzer) (c : string) :
  verbose self = verbose self' ->
  action self = action self' ->
  jobs self = jobs self' ->
  call self c = call self' c.
Proof.
  destruct self as [iw ic vb a j], self' as [iw' ic' vb' a' j'].
  cbn [verbose action jobs]. intros -> -> ->.
  unfold call. cbn [method_in Analyzer__dict__].
  repeat match goal with
         | |- context [String.eqb ?x ?y] => destruct (String.eqb x y)
         end; reflexivity.
Qed.

(** ** Running the checks on a document *)

Lemma load_init (ign : list string) (iw vb : bool) (document js : value) :
  getitem document "jobs" = Ok js ->
  load (__init__ ign iw vb) document = Ok (loaded ign iw vb document js).
Proof.
  intro H. unfold load. cbn [set_action action __init__]. rewrite H. reflexivity.
Qed.

Lemma gate_same_document (ign ign' : list string) (iw iw' vb vb' : bool)
    (document js : value) :
  _action_has_required_elements (loaded ign iw vb document js) =
  _action_has_required_elements (loaded ign' iw' vb' document js).
Proof. reflexivity. Qed.

Lemma run_checks_traced_init (ign : list string) (iw vb : bool) (document js : value) :
  getitem document "jobs" = Ok js ->
  run_checks_traced (__init__ ign iw vb) document =
    match _action_has_required_elements (loaded ign iw vb document js) with
    | Raise e => ([], Raise e)
    | Ok true => run_loop (loaded ign iw vb document js) get_checks [] start
    | Ok false => ([], Ok start)
    end.
Proof.
  intro H. unfold run_checks_traced. rewrite (load_init ign iw vb document js H).
  reflexivity.
Qed.

Lemma run_checks_inv (ign : list string) (iw vb : bool) (document : value) (v : verdict) :
  run_checks (__init__ ign iw vb) document = Ok v ->
  exists js, getitem document "jobs" = Ok js /\
    ((_action_has_required_elements (loaded ign iw vb document js) = Ok false /\
      v = start) \/
     (_action_has_required_elements (loaded ign iw vb document js) = Ok true /\
      snd (run_loop (loaded ign iw vb document js) get_checks [] start) = Ok v)).
Proof.
  unfold run_checks. intro H.
  destruct (getitem document "jobs") as [js | e] eqn:Ej.
  - exists js. split; [reflexivity |].
    rewrite (run_checks_traced_init ign iw vb document js Ej) in H.
    destruct (_action_has_required_elements (loaded ign iw vb document js))
      as [[|] | e]; cbn [snd] in H.
    + right. split; [reflexivity | exact H].
    + left. split; [reflexivity | congruence].
    + discriminate H.
  - unfold run_checks_traced, load in H. cbn [set_action action __init__] in H.
    rewrite Ej in H. discriminate H.
Qed.

(** A run whose gate is closed evaluates no check and passes. *)
Lemma run_checks_gate_closed (ign : list string) (iw vb : bool) (document js : value) :
  getitem document "jobs" = Ok js ->
  _action_has_required_elements (loaded ign iw vb document js) = Ok false ->
  run_checks_traced (__init__ ign iw vb) document = ([], Ok start).
Proof.
  intros Hj Hg. rewrite (run_checks_traced_init ign iw vb document js Hj), Hg.
  reflexivity.
Qed.

(** A run that ends reports the failures of the checks it called. *)
Lemma run_loop_verdict (self : Analyzer) (v : verdict) :
  snd (run_loop self get_checks [] start) = Ok v ->
  v = extend start (failures self get_checks) /\
  forall c, In c get_checks -> skips self c = false -> returns self c.
Proof.
  intro H.
  assert (Hret := run_loop_ended self get_checks [] start v (incl_refl _) H).
  split; [| exact Hret].
  rewrite (run_loop_returns self get_checks [] start (incl_refl _) Hret) in H.
  congruence.
Qed.

Lemma extend_start (fs : list string) :
  extend start fs = {| passed_all_checks := is_nil fs; fail_checks := fs |}.
Proof. reflexivity. Qed.

Lemma returns_same_document (ign ign' : list string) (iw iw' vb : bool)
    (document js : value) (c : string) :
  returns (loaded ign iw vb document js) c ->
  returns (loaded ign' iw' vb document js) c.
Proof.
  unfold returns.
  now rewrite (call_same_document (loaded ign iw vb document js)
                 (loaded ign' iw' vb document js) c eq_refl eq_refl eq_refl).
Qed.

Lemma failed_same_document (ign ign' : list string) (iw iw' vb : bool)
    (document js : value) (c : string) :
  failed (loaded ign iw vb document js) c = failed (loaded ign' iw' vb document js) c.
Proof.
  unfold failed.
  now rewrite (call_same_document (loaded ign iw vb document js)
                 (loaded ign' iw' vb document js) c eq_refl eq_refl eq_refl).
Qed.

(** The names under which checks are suppressed are those of [get_checks]
    without their first character, and they tell the checks apart. *)
Lemma drop_first_registered (c x : string) :
  In c get_checks -> In x get_checks ->
  String.eqb (drop_first c) (drop_first x) = String.eqb c x.
Proof.
  intros Hc Hx. simpl in Hc, Hx.
  repeat (destruct Hc as [Hc | Hc]; [subst c |]); try contradiction;
    repeat (destruct Hx as [Hx | Hx]; [subst x; reflexivity |]); contradiction.
Qed.

Lemma skips_suppressed (ign : list string) (iw vb : bool) (document js : value)
    (x c : string) :
  In x get_checks -> In c get_checks ->
  skips (loaded (drop_first x :: ign) iw vb document js) c =
    String.eqb c x || skips (loaded ign iw vb document js) c.
Proof.
  intros Hx Hc. unfold skips. cbn [ignore_warnings ignore_checks loaded in_strings existsb].
  rewrite (drop_first_registered c x Hc Hx).
  fold (in_strings (drop_first c) ign).
  destruct (iw && warn c), (String.eqb c x), (in_strings (drop_first c) ign); reflexivity.
Qed.

Lemma failures_suppressed (ign : list string) (iw vb : bool) (document js : value)
    (x : string) (names : list string) :
  In x get_checks -> incl names get_checks ->
  failures (loaded (drop_first x :: ign) iw vb document js) names =
    without x (failures (loaded ign iw vb document js) names).
Proof.
  intros Hx. induction names as [| c rest IH]; intro Hreg.
  - reflexivity.
  - assert (Hc : In c get_checks) by (apply Hreg; now left).
    assert (Hreg' : incl rest get_checks) by (intros y Hy; apply Hreg; now right).
    unfold failures, without in *. cbn [filter].
    rewrite (skips_suppressed ign iw vb document js x c Hx Hc).
    rewrite (failed_same_document (drop_first x :: ign) ign iw iw vb document js c).
    destruct (String.eqb c x) eqn:E; cbn [orb negb andb].
    + rewrite (IH Hreg').
      destruct (negb (skips (loaded ign iw vb document js) c) &&
                failed (loaded ign iw vb document js) c); [| reflexivity].
      cbn [filter]. rewrite E. reflexivity.
    + rewrite (IH Hreg').
      destruct (negb (skips (loaded ign iw vb document js) c) &&
                failed (loaded ign iw vb document js) c); [| reflexivity].
      cbn [filter]. rewrite E. reflexivity.
Qed.

Lemma gate_loop_returns (jl part : list (string * value)) (passed : bool) :
  forallb (fun kj => is_mapping (snd kj)) jl = true ->
  incl part jl ->
  exists e : loop_end bool bool,
    for_in (map (fun kv => VStr (fst kv)) part)
      (fun job passed =>
         j <- subscript (VDict jl) job ;;
         has <- contains "steps" j ;;
         if negb has then Ok (Break false) else Ok (Next passed)) passed = Ok e.
Proof.
  intros Hm. revert passed. induction part as [| [k j] rest IH]; intros passed Hin.
  - exists (Fell passed). reflexivity.
  - assert (Hk : In k (map fst jl)).
    { apply in_map_iff. exists (k, j). split; [reflexivity | apply Hin; now left]. }
    destruct (lookup_key_in k jl Hk) as [j' [Hl Hj']].
    rewrite forallb_forall in Hm. specialize (Hm (k, j') Hj'). cbn [snd] in Hm.
    destruct j' as [| b | z | s | l | jd]; try discriminate Hm.
    cbn [map fst for_in subscript]. rewrite Hl. cbn [bind contains].
    destruct (lookup "steps" jd); cbn [bind negb].
    + apply IH. intros y Hy. apply Hin. now right.
    + exists (Fell false). reflexivity.
Qed.

Lemma gate_returns (ign : list string) (iw vb : bool) (document : value) :
  jobs_are_mappings document = true ->
  exists js b, getitem document "jobs" = Ok js /\
    _action_has_required_elements (loaded ign iw vb document js) = Ok b.
Proof.
  unfold jobs_are_mappings. destruct document as [| b | z | s | l | d]; try discriminate.
  destruct (lookup "jobs" d) as [[| b | z | s | l | jl] |] eqn:Ej; try discriminate.
  intro Hm. exists (VDict jl).
  destruct (gate_loop_returns jl jl
              (if negb match lookup "name" d with
                       | Some _ => match lookup "on" d with Some _ => true | None => false end
                       | None => false
                       end then false else true) Hm (incl_refl _)) as [e He].
  exists (finish e). split.
  - unfold getitem, subscript. rewrite Ej. reflexivity.
  - unfold _action_has_required_elements.
    cbn [action loaded all_of contains bind self_jobs jobs keys]. rewrite Ej.
    destruct (lookup "name" d); destruct (lookup "on" d); cbn [bind negb] in *;
      rewrite He; reflexivity.
Qed.

(** Without [jobs] in the document no run returns: the subscript raises
    before the gate is consulted. *)
Lemma missing_jobs_raises (ign : list string) (iw vb : bool) (d : list (string * value)) :
  lookup "jobs" d = None ->
  run_checks (__init__ ign iw vb) (VDict d) = Raise KeyError /\
  evaluated (__init__ ign iw vb) (VDict d) = [].
Proof.
  intro H. unfold run_checks, evaluated, run_checks_traced, load.
  cbn [set_action action __init__ getitem subscript]. rewrite H. split; reflexivity.
Qed.

(** ** The precondition gate *)

Lemma gate_loop_closed (js : value) (ks : list value) (e : loop_end bool bool) :
  for_in ks (fun job passed =>
     j <- subscript js job ;;
     has <- contains "steps" j ;;
     if negb has then Ok (Break false) else Ok (Next passed)) false = Ok e ->
  finish e = false.
Proof.
  revert e. induction ks as [| k rest IH]; intros e H; cbn [for_in] in H.
  - inversion H. reflexivity.
  - destruct (subscript js k) as [j | x]; cbn [bind] in H; [| discriminate H].
    destruct (contains "steps" j) as [[|] | x]; cbn [bind negb] in H.
    + exact (IH e H).
    + inversion H. reflexivity.
    + discriminate H.
Qed.

(** A document that passes the gate is a mapping with the three keys. *)
Lemma gate_open_keys (ign : list string) (iw vb : bool) (document : value)
    (self : Analyzer) :
  load (__init__ ign iw vb) document = Ok self ->
  _action_has_required_elements self = Ok true ->
  exists d n o js,
    document = VDict d /\ self = loaded ign iw vb document js /\
    lookup "name" d = Some n /\ lookup "on" d = Some o /\ lookup "jobs" d = Some js.
Proof.
  intros Hl Hg. destruct (load_ok _ _ _ Hl) as [d [js [Hd [Hj Hs]]]].
  subst document self. unfold _action_has_required_elements in Hg.
  cbn [action set_jobs set_action all_of contains bind self_jobs jobs] in Hg.
  rewrite Hj in Hg.
  destruct (lookup "name" d) as [n |] eqn:En; cbn [bind negb] in Hg.
  - destruct (lookup "on" d) as [o |] eqn:Eo; cbn [bind negb] in Hg.
    + exists d, n, o, js. repeat split; assumption.
    + apply bind_ok in Hg. destruct Hg as [ks [_ Hg]].
      apply bind_ok in Hg. destruct Hg as [e [He Hg]].
      apply gate_loop_closed in He. congruence.
  - apply bind_ok in Hg. destruct Hg as [ks [_ Hg]].
    apply bind_ok in Hg. destruct Hg as [e [He Hg]].
    apply gate_loop_closed in He. congruence.
Qed.

(** ** The trigger *)

Lemma lookup_none (k : string) (d : list (string * value)) :
  lookup k d = None <-> ~ In k (map fst d).
Proof.
  split.
  - intros H Hin. destruct (lookup_key_in k d Hin) as [v [Hv _]]. congruence.
  - induction d as [| [k' v'] rest IH]; cbn; intro H.
    + reflexivity.
    + destruct (String.eqb k k') eqn:E.
      * apply String.eqb_eq in E. subst k'. exfalso. apply H. now left.
      * apply IH. intro Hin. apply H. now right.
Qed.

Lemma eq_str_iff (v : value) (s : string) : eq_str v s = true <-> v = VStr s.
Proof.
  destruct v; cbn; split; intro H; try discriminate H.
  - apply String.eqb_eq in H. now subst.
  - inversion H. apply String.eqb_refl.
Qed.

Lemma list_contains_iff (k : string) (l : list value) :
  existsb (fun v => eq_str v k) l = true <-> In (VStr k) l.
Proof.
  rewrite existsb_exists. split.
  - intros [v [Hin E]]. apply eq_str_iff in E. now subst v.
  - intro H. exists (VStr k). split; [exact H | now apply eq_str_iff].
Qed.

(** The check on the trigger found under [on]. *)
Lemma pull_request_target_on (self : Analyzer) (o : value) :
  getitem (action self) "on" = Ok o ->
  exists b, _check_for_pull_request_target self = Ok b /\
    (b = false <-> trigger_includes "pull_request_target" o).
Proof.
  intro H. unfold _check_for_pull_request_target. rewrite H. cbn [bind].
  destruct o as [| b | z | s | l | d]; cbn [trigger_includes contains eq_str bind].
  - exists true. split; [reflexivity |]. split; [discriminate | contradiction].
  - exists true. split; [reflexivity |]. split; [discriminate | contradiction].
  - exists true. split; [reflexivity |]. split; [discriminate | contradiction].
  - destruct (String.eqb s "pull_request_target") eqn:E.
    + exists false. split; [reflexivity |]. apply String.eqb_eq in E. tauto.
    + exists true. split; [reflexivity |]. apply String.eqb_neq in E.
      split; [discriminate | contradiction].
  - destruct (existsb (fun v => eq_str v "pull_request_target") l) eqn:E.
    + exists false. split; [reflexivity |]. apply list_contains_iff in E. tauto.
    + exists true. split; [reflexivity |]. split; [discriminate |].
      intro Hin. apply list_contains_iff in Hin. congruence.
  - destruct (lookup "pull_request_target" d) as [v |] eqn:E.
    + exists false. split; [reflexivity |]. split; [| reflexivity].
      intros _. destruct (in_dec string_dec "pull_request_target" (map fst d)) as [Hin | Hn];
        [exact Hin |]. apply lookup_none in Hn. congruence.
    + exists true. split; [reflexivity |]. split; [discriminate |].
      apply lookup_none in E. contradiction.
Qed.

(** ** A document without jobs in [jobs] *)

Lemma write_scope_loop_mapping (pd : list (string * value)) (passed : bool) :
  exists e, write_scope_loop (VDict pd) passed = Ok e.
Proof.
  unfold write_scope_loop, dangerous_scopes.
  cbn [for_in contains getitem subscript bind].
  repeat match goal with
         | |- context [lookup ?k pd] => destruct (lookup k pd); cbn [bind]
         | |- context [eq_str ?v ?s] => destruct (eq_str v s); cbn [bind]
         end; eexists; reflexivity.
Qed.

Lemma dangerous_write_permissions_no_jobs (ign : list string) (iw vb : bool)
    (d : list (string * value)) :
  permissions_shape (lookup "permissions" d) = true ->
  exists b, _check_for_dangerous_write_permissions
              (loaded ign iw vb (VDict d) (VDict [])) = Ok b.
Proof.
  unfold _check_for_dangerous_write_permissions, permissions_shape.
  cbn [action loaded contains getitem subscript].
  destruct (lookup "permissions" d) as [[| b | z | s | l | pd] |];
    try discriminate; intro H; cbn [bind].
  - apply orb_true_iff in H. destruct H as [H | H]; apply String.eqb_eq in H; subst s.
    + exists false. reflexivity.
    + exists true. reflexivity.
  - cbn [eq_str]. destruct (write_scope_loop_mapping pd true) as [e He].
    rewrite He. cbn [bind]. destruct e as [p | r].
    + exists p. reflexivity.
    + exists r. reflexivity.
  - exists true. reflexivity.
Qed.

(** ** Soundness of the matcher *)

Lemma nullable_sound (r : regex) : nullable r = true -> matches r [].
Proof.
  induction r as [| | p | r1 IH1 r2 IH2 | r1 IH1 r2 IH2 | r IH]; cbn; intro H;
    try discriminate H.
  - constructor.
  - apply andb_true_iff in H. destruct H as [H1 H2].
    change (@nil ascii) with (@nil ascii ++ @nil ascii).
    constructor; [exact (IH1 H1) | exact (IH2 H2)].
  - apply orb_true_iff in H. destruct H as [H | H].
    + apply m_or_l. exact (IH1 H).
    + apply m_or_r. exact (IH2 H).
  - constructor.
Qed.

Lemma matches_seq_inv (r1 r2 : regex) (s : list ascii) :
  matches (Seq r1 r2) s ->
  exists s1 s2, s = s1 ++ s2 /\ matches r1 s1 /\ matches r2 s2.
Proof.
  intro H. inversion H as [| | a b s1 s2 H1 H2 | | | |]; subst.
  exists s1, s2. repeat split; assumption.
Qed.

Lemma matches_class_inv (p : ascii -> bool) (s : list ascii) :
  matches (Class p) s -> exists c, s = [c] /\ p c = true.
Proof.
  intro H. inversion H as [| q c Hc | | | | |]; subst.
  exists c. split; [reflexivity | exact Hc].
Qed.

Lemma matches_chr_inv (a : ascii) (s : list ascii) :
  matches (Chr a) s -> s = [a].
Proof.
  intro H. apply matches_class_inv in H. destruct H as [c [Hs Hc]].
  apply Ascii.eqb_eq in Hc. now subst.
Qed.

Lemma seq_sound (r1 r2 : regex) (s : list ascii) :
  matches (seq r1 r2) s -> matches (Seq r1 r2) s.
Proof.
  destruct r1; cbn; intro H; try exact H.
  - inversion H.
  - change s with ([] ++ s). constructor; [constructor | exact H].
Qed.

Lemma alt_sound (r1 r2 : regex) (s : list ascii) :
  matches (alt r1 r2) s -> matches (Or r1 r2) s.
Proof.
  destruct r1, r2; cbn; intro H;
    first [ exact H | apply m_or_r; exact H | apply m_or_l; exact H ].
Qed.

Lemma deriv_sound (r : regex) :
  forall (a : ascii) (s : list ascii), matches (deriv a r) s -> matches r (a :: s).
Proof.
  induction r as [| | p | r1 IH1 r2 IH2 | r1 IH1 r2 IH2 | r IH]; intros a s H; cbn in H.
  - inversion H.
  - inversion H.
  - destruct (p a) eqn:E; inversion H; subst. constructor. exact E.
  - assert (Hleft : matches (seq (deriv a r1) r2) s -> matches (Seq r1 r2) (a :: s)).
    { intro Hs. apply seq_sound in Hs. apply matches_seq_inv in Hs.
      destruct Hs as [s1 [s2 [Es [H1 H2]]]]. subst s.
      change (a :: s1 ++ s2) with ((a :: s1) ++ s2).
      constructor; [exact (IH1 a s1 H1) | exact H2]. }
    destruct (nullable r1) eqn:En; [| exact (Hleft H)].
    apply alt_sound in H. inversion H as [| | | a1 b1 s1 H1 | a1 b1 s1 H1 | |]; subst.
    + exact (Hleft H1).
    + change (a :: s) with ([] ++ a :: s).
      constructor; [exact (nullable_sound r1 En) | exact (IH2 a s H1)].
  - apply alt_sound in H. inversion H as [| | | a1 b1 s1 H1 | a1 b1 s1 H1 | |]; subst.
    + apply m_or_l. exact (IH1 a s H1).
    + apply m_or_r. exact (IH2 a s H1).
  - apply seq_sound in H. apply matches_seq_inv in H.
    destruct H as [s1 [s2 [Es [H1 H2]]]]. subst s.
    change (a :: s1 ++ s2) with ((a :: s1) ++ s2).
    constructor; [exact (IH a s1 H1) | exact H2].
Qed.

Lemma match_here_sound (s : list ascii) :
  forall r, match_here r s = true -> exists m t, s = m ++ t /\ matches r m.
Proof.
  induction s as [| a s IH]; intros r H; cbn in H.
  - rewrite orb_false_r in H. exists [], []. split; [reflexivity | exact (nullable_sound r H)].
  - apply orb_true_iff in H. destruct H as [H | H].
    + exists [], (a :: s). split; [reflexivity | exact (nullable_sound r H)].
    + destruct (IH _ H) as [m [t [Es Hm]]]. exists (a :: m), t.
      split; [now subst s | exact (deriv_sound r a m Hm)].
Qed.

(** A successful search has found a substring in the language of the
    pattern. *)
Lemma search_chars_sound (r : regex) (s : list ascii) :
  search_chars r s = true -> exists p m t, s = p ++ m ++ t /\ matches r m.
Proof.
  induction s as [| a s IH]; intro H; cbn [search_chars] in H.
  - rewrite orb_false_r in H. destruct (match_here_sound [] r H) as [m [t [Es Hm]]].
    exists [], m, t. split; [exact Es | exact Hm].
  - apply orb_true_iff in H. destruct H as [H | H].
    + destruct (match_here_sound (a :: s) r H) as [m [t [Es Hm]]].
      exists [], m, t. split; [exact Es | exact Hm].
    + destruct (IH H) as [p [m [t [Es Hm]]]]. exists (a :: p), m, t.
      split; [now subst s | exact Hm].
Qed.

(** ** Version tags *)

Lemma has_version_tag_at (p t : list ascii) (c : ascii) :
  is_digit c = true ->
  has_version_tag (p ++ "@"%char :: "v"%char :: c :: t) = true.
Proof.
  intro Hc. induction p as [| a p IH].
  - cbn [app has_version_tag version_tag_here]. rewrite Hc. reflexivity.
  - cbn [app has_version_tag]. rewrite IH. apply orb_true_r.
Qed.

Lemma action_with_version_has_tag (m : list ascii) :
  matches ACTION_WITH_VERSION_REGEX m ->
  exists p c t, m = p ++ "@"%char :: "v"%char :: c :: t /\ is_digit c = true.
Proof.
  unfold ACTION_WITH_VERSION_REGEX, VERSION_TAG, Plus. intro H.
  apply matches_seq_inv in H. destruct H as [owner [s1 [E1 [_ H]]]].
  apply matches_seq_inv in H. destruct H as [slash [s2 [E2 [_ H]]]].
  apply matches_seq_inv in H. destruct H as [repo [s3 [E3 [_ H]]]].
  apply matches_seq_inv in H. destruct H as [at_ [s4 [E4 [Hat H]]]].
  apply matches_seq_inv in H. destruct H as [v_ [s5 [E5 [Hv H]]]].
  apply matches_seq_inv in H. destruct H as [digits [s6 [E6 [Hd _]]]].
  apply matches_seq_inv in Hd. destruct Hd as [d1 [ds [E7 [Hd _]]]].
  apply matches_chr_inv in Hat. apply matches_chr_inv in Hv.
  apply matches_class_inv in Hd. destruct Hd as [c [Ec Hc]].
  subst. exists (owner ++ slash ++ repo), c, (ds ++ s6).
  split; [| exact Hc]. cbn [app]. now rewrite <- !app_assoc.
Qed.

(** The pattern of the pinning check is found only in a text that has a
    version tag. *)
Lemma action_with_version_search (s : list ascii) :
  search_chars ACTION_WITH_VERSION_REGEX s = true -> has_version_tag s = true.
Proof.
  intro H. apply search_chars_sound in H. destruct H as [p [m [t [Es Hm]]]].
  apply action_with_version_has_tag in Hm. destruct Hm as [q [c [u [Em Hc]]]].
  subst s m. rewrite <- app_assoc. cbn [app]. rewrite app_assoc.
  apply has_version_tag_at. exact Hc.
Qed.

(** ** The pinning check *)

Lemma pinned_step_goes_on (step : value) (passed : bool) :
  uses_pinned step = true ->
  (has <- contains "uses" step ;;
   if has then
     uses <- getitem step "uses" ;;
     found <- search ACTION_WITH_VERSION_REGEX uses ;;
     if found then Ok (Break false) else Ok (Next passed)
   else Ok (Next passed)) = Ok (@Next bool bool passed).
Proof.
  unfold uses_pinned. destruct step as [| b | z | s | l | sd]; try discriminate.
  cbn [contains getitem subscript bind].
  destruct (lookup "uses" sd) as [[| b | z | s | l | ud] |]; try discriminate;
    intro H; cbn [bind search]; [| reflexivity].
  unfold pinned_by_sha in H. apply andb_true_iff in H. destruct H as [_ H].
  destruct (search_chars ACTION_WITH_VERSION_REGEX (chars s)) eqn:E; [| reflexivity].
  apply action_with_version_search in E. rewrite E in H. discriminate H.
Qed.

(** A reference [ref@sha] whose [ref] has no [@] has no version tag: a
    hexadecimal digit is not [v]. *)
Lemma no_at_no_version_tag (s : list ascii) :
  forallb (fun c => negb (Ascii.eqb c "@")) s = true -> has_version_tag s = false.
Proof.
  induction s as [| a s IH]; intro H.
  - reflexivity.
  - cbn [forallb] in H. apply andb_true_iff in H. destruct H as [Ha Hs].
    cbn [has_version_tag]. rewrite (IH Hs), orb_false_r.
    unfold version_tag_here. destruct s as [| b [| c s']]; try reflexivity.
    apply negb_true_iff in Ha. rewrite Ha. reflexivity.
Qed.

Lemma is_hex_not_at (c : ascii) : is_hex c = true -> negb (Ascii.eqb c "@") = true.
Proof.
  intro H. destruct (Ascii.eqb c "@") eqn:E; [| reflexivity].
  apply Ascii.eqb_eq in E. subst c. discriminate H.
Qed.

Lemma sha_reference_has_no_version_tag (ref sha : list ascii) :
  forallb (fun c => negb (Ascii.eqb c "@")) ref = true ->
  forallb is_hex sha = true ->
  has_version_tag (ref ++ "@"%char :: sha) = false.
Proof.
  intros Href Hsha.
  assert (Hs : has_version_tag sha = false).
  { apply no_at_no_version_tag. rewrite forallb_forall in *.
    intros c Hc. apply is_hex_not_at. exact (Hsha c Hc). }
  induction ref as [| a ref IH].
  - cbn [app has_version_tag]. rewrite Hs, orb_false_r.
    unfold version_tag_here. destruct sha as [| b [| c sha']]; try reflexivity.
    cbn [forallb] in Hsha. apply andb_true_iff in Hsha. destruct Hsha as [Hb _].
    destruct (Ascii.eqb b "v") eqn:E; [| reflexivity].
    apply Ascii.eqb_eq in E. subst b. discriminate Hb.
  - cbn [forallb] in Href. apply andb_true_iff in Href. destruct Href as [Ha Hr].
    cbn [app has_version_tag]. rewrite (IH Hr), orb_false_r.
    apply negb_true_iff in Ha. unfold version_tag_here.
    destruct (ref ++ "@"%char :: sha) as [| b [| c t]]; try reflexivity.
    rewrite Ha. reflexivity.
Qed.

Lemma skipn_length_app {X : Type} (l x : list X) : skipn (List.length l) (l ++ x) = x.
Proof. induction l as [| a l IH]; [reflexivity | exact IH]. Qed.

(** The usual reference, [owner/repo@sha], is pinned in the sense of
    [pinned_by_sha]. *)
Lemma reference_at_sha_is_pinned (ref sha : list ascii) :
  forallb (fun c => negb (Ascii.eqb c "@")) ref = true ->
  List.length sha = 40 ->
  forallb is_hex sha = true ->
  pinned_by_sha (string_of_list_ascii (ref ++ "@"%char :: sha)) = true.
Proof.
  intros Href Hlen Hsha. unfold pinned_by_sha, chars.
  rewrite list_ascii_of_string_of_list_ascii.
  rewrite (sha_reference_has_no_version_tag ref sha Href Hsha), andb_true_r.
  unfold ends_with_sha. rewrite length_app. cbn [List.length]. rewrite Hlen.
  replace (List.length ref + 41 - 41) with (List.length ref) by lia.
  rewrite skipn_length_app, Hlen, Hsha. reflexivity.
Qed.

(** * Properties of the specification *)

(** ** Documents that fail the gate *)

(** C1. A document without [jobs] fails the gate, which lists ["jobs"] among
    the required keys, yet [run_checks] does not return a passing verdict on
    it: [self.jobs = self.action["jobs"]] raises [KeyError] before the gate
    is consulted, and no check is evaluated. *)
Theorem run_checks_without_jobs_raises :
  run_checks (__init__ [] false false) document_without_jobs = Raise KeyError /\
  evaluated (__init__ [] false false) document_without_jobs = [].
Proof. split; reflexivity. Qed.

(** ** The credentials check and OIDC *)

(** C2. A document passes the gate, none of its steps gives a long-lived
    credential to the credentials action (its only step assumes a role by
    OIDC), and yet the check fails: [passed = False] is executed for every
    step that uses the action, the test on the inputs guards the diagnostic
    only. *)
Theorem oidc_only_step_fails_the_check :
  exists self,
    load (__init__ [] false false) document_oidc = Ok self /\
    _action_has_required_elements self = Ok true /\
    existsb non_oidc_step (steps_of document_oidc) = false /\
    _check_for_aws_configure_credentials_non_oidc self = Ok false /\
    run_checks (__init__ [] false false) document_oidc =
      Ok (reporting ["_check_for_aws_configure_credentials_non_oidc"]).
Proof.
  eexists. split; [reflexivity |]. repeat split; vm_compute; reflexivity.
Qed.

(** ** Steps without the inspected field *)

(** C3. A document passes the gate, its only step uses the credentials
    action and has no [with], and the check raises [KeyError] on
    [step["with"]], and so does the run. *)
Theorem step_without_inputs_raises :
  exists self,
    load (__init__ [] false false) document_aws_without_inputs = Ok self /\
    _action_has_required_elements self = Ok true /\
    _check_for_aws_configure_credentials_non_oidc self = Raise KeyError /\
    run_checks (__init__ [] false false) document_aws_without_inputs = Raise KeyError.
Proof.
  eexists. split; [reflexivity |]. repeat split; vm_compute; reflexivity.
Qed.

(** ** Ids of discovery and of suppression *)

(** C4, as stated: the analyzer that is given the exact string of
    [get_checks] for the [pull_request_target] check still evaluates and
    reports that check. *)
Lemma listed_id_does_not_suppress :
  In "_check_for_pull_request_target" get_checks /\
  In "_check_for_pull_request_target"
    (evaluated (__init__ ["_check_for_pull_request_target"] false false)
       document_pull_request_target) /\
  run_checks (__init__ ["_check_for_pull_request_target"] false false)
    document_pull_request_target =
    Ok (reporting ["_check_for_pull_request_target"]).
Proof.
  split; [| split].
  - cbn. tauto.
  - vm_compute. tauto.
  - vm_compute. reflexivity.
Qed.

(** C4, amended. For every id of [get_checks], an analyzer whose
    [ignore_checks] holds that id without its first character (the leading
    underscore) never evaluates the check, on any document. *)
Theorem suppressed_check_is_skipped (id : string) (ign : list string) (iw vb : bool)
    (document : value) :
  In id get_checks ->
  In (drop_first id) ign ->
  ~ In id (evaluated (__init__ ign iw vb) document).
Proof.
  intros _ Hign Hev. unfold evaluated, run_checks_traced in Hev.
  destruct (load (__init__ ign iw vb) document) as [self' | e] eqn:El;
    [| exact Hev].
  destruct (load_ok _ _ _ El) as [d [js [_ [_ Hs]]]].
  destruct (_action_has_required_elements self') as [[|] | e]; try exact Hev.
  destruct (run_loop_called self' get_checks [] start id Hev) as [[] | [_ [Hi _]]].
  subst self'. cbn [ignore_checks set_jobs set_action __init__] in Hi.
  apply in_strings_In in Hign. congruence.
Qed.

Lemma suppressed_check_is_skipped_witness :
  ~ In "_check_for_pull_request_target"
      (evaluated (__init__ ["check_for_pull_request_target"] false false)
         document_pull_request_target).
Proof.
  apply (suppressed_check_is_skipped "_check_for_pull_request_target"
           ["check_for_pull_request_target"] false false document_pull_request_target).
  - cbn. tauto.
  - cbn. tauto.
Defined.

(** ** Suppression *)

(** C5, as stated. With the id of [get_checks] in the suppressed set the
    failure list still holds the check, whereas the unsuppressed list with
    the check removed is empty; with all the ids of [get_checks] suppressed
    the verdict is a failure; and a document without [jobs] has no verdict
    at all, whatever is suppressed. *)
Lemma suppression_by_listed_id_fails :
  run_checks (__init__ [] false false) document_pull_request_target =
    Ok (reporting ["_check_for_pull_request_target"]) /\
  run_checks (__init__ ["_check_for_pull_request_target"] false false)
    document_pull_request_target =
    Ok (reporting ["_check_for_pull_request_target"]) /\
  without "_check_for_pull_request_target" ["_check_for_pull_request_target"] = [] /\
  (forall x, In x get_checks -> In x (ignore_checks (__init__ get_checks false false))) /\
  run_checks (__init__ get_checks false false) document_pull_request_target =
    Ok {| passed_all_checks := false;
          fail_checks := ["_check_for_pull_request_target"] |} /\
  run_checks (__init__ (map drop_first get_checks) false false) document_without_jobs =
    Raise KeyError.
Proof.
  repeat split; try (vm_compute; reflexivity).
  intros x Hx. exact Hx.
Qed.

(** C5, amended. A check is suppressed under its id without the leading
    underscore. Whenever the run of an analyzer on a document returns a
    verdict, the run that also suppresses the check [x] returns the same
    failure list with [x] removed, and passes when that list is empty. On
    every document whose [jobs] is a mapping of mappings, the run that
    suppresses every check passes with an empty failure list. *)
Theorem suppression_removes_check (ign : list string) (iw vb : bool) (document : value) :
  (forall x v, In x get_checks ->
     run_checks (__init__ ign iw vb) document = Ok v ->
     run_checks (__init__ (drop_first x :: ign) iw vb) document =
       Ok (reporting (without x (fail_checks v)))) /\
  (jobs_are_mappings document = true ->
   (forall x, In x get_checks -> In (drop_first x) ign) ->
   run_checks (__init__ ign iw vb) document = Ok (reporting [])).
Proof.
  split.
  - intros x v Hx Hrun.
    destruct (run_checks_inv ign iw vb document v Hrun) as [js [Hj [[Hg Hv] | [Hg Hl]]]].
    + subst v. unfold run_checks.
      rewrite (run_checks_gate_closed (drop_first x :: ign) iw vb document js Hj);
        [reflexivity |].
      rewrite <- Hg. apply gate_same_document.
    + destruct (run_loop_verdict _ v Hl) as [Hv Hret].
      unfold run_checks.
      rewrite (run_checks_traced_init (drop_first x :: ign) iw vb document js Hj).
      rewrite (gate_same_document (drop_first x :: ign) ign iw iw vb vb document js), Hg.
      rewrite run_loop_returns.
      * rewrite (failures_suppressed ign iw vb document js x get_checks Hx (incl_refl _)).
        subst v. reflexivity.
      * apply incl_refl.
      * intros c Hc Hs.
        rewrite (skips_suppressed ign iw vb document js x c Hx Hc) in Hs.
        apply orb_false_elim in Hs. destruct Hs as [_ Hs].
        apply (returns_same_document ign (drop_first x :: ign) iw iw vb document js c).
        exact (Hret c Hc Hs).
  - intros Hm Hall.
    destruct (gate_returns ign iw vb document Hm) as [js [b [Hj Hg]]].
    unfold run_checks. rewrite (run_checks_traced_init ign iw vb document js Hj), Hg.
    destruct b; [| reflexivity].
    assert (Hskip : forall c, In c get_checks ->
              skips (loaded ign iw vb document js) c = true).
    { intros c Hc. unfold skips. cbn [ignore_checks loaded].
      apply orb_true_iff. right. apply in_strings_In. exact (Hall c Hc). }
    rewrite run_loop_returns.
    + unfold failures. rewrite filter_none; [reflexivity |].
      intros c Hc. rewrite (Hskip c Hc). reflexivity.
    + apply incl_refl.
    + intros c Hc Hs. rewrite (Hskip c Hc) in Hs. discriminate Hs.
Qed.

Lemma suppression_removes_check_witness :
  run_checks (__init__ ["check_for_pull_request_target"] false false)
    document_pull_request_target = Ok (reporting []) /\
  run_checks (__init__ (map drop_first get_checks) false false)
    document_pull_request_target = Ok (reporting []).
Proof.
  split.
  - apply (proj1 (suppression_removes_check [] false false document_pull_request_target)
             "_check_for_pull_request_target"
             (reporting ["_check_for_pull_request_target"])).
    + cbn. tauto.
    + vm_compute. reflexivity.
  - apply (proj2 (suppression_removes_check (map drop_first get_checks) false false
                    document_pull_request_target)).
    + vm_compute. reflexivity.
    + intros x Hx. apply in_map. exact Hx.
Defined.

(** ** Write permissions for all scopes *)

(** C6. On every document that passes the gate and whose top-level
    [permissions] is the string [write-all], the check for dangerous write
    permissions fails, whatever the jobs hold. *)
Theorem write_all_permissions_fail (ign : list string) (iw vb : bool)
    (document : value) (self : Analyzer) :
  load (__init__ ign iw vb) document = Ok self ->
  _action_has_required_elements self = Ok true ->
  getitem document "permissions" = Ok (VStr "write-all") ->
  _check_for_dangerous_write_permissions self = Ok false.
Proof.
  intros Hl _ Hp. destruct (load_ok _ _ _ Hl) as [d [js [Hd [_ Hs]]]].
  subst document self. apply getitem_ok in Hp. destruct Hp as [d' [Hd' Hp]].
  inversion Hd'. subst d'.
  unfold _check_for_dangerous_write_permissions.
  cbn [action set_jobs set_action contains getitem subscript]. rewrite Hp.
  reflexivity.
Qed.

Lemma write_all_permissions_fail_witness :
  exists self,
    load (__init__ [] false false) document_write_all = Ok self /\
    _check_for_dangerous_write_permissions self = Ok false.
Proof.
  eexists. split; [reflexivity |].
  apply (write_all_permissions_fail [] false false document_write_all);
    vm_compute; reflexivity.
Defined.

(** ** Actions pinned by a commit *)

(** C7. On every document that passes the gate and in which every step
    that has a [uses] pins it by a 40-character hexadecimal commit hash and
    without a version tag, the check for actions without hash passes. *)
Theorem pinned_actions_pass (ign : list string) (iw vb : bool)
    (document : value) (self : Analyzer) :
  load (__init__ ign iw vb) document = Ok self ->
  _action_has_required_elements self = Ok true ->
  every_uses_pinned document = true ->
  _check_for_3p_actions_without_hash self = Ok true.
Proof.
  intros Hl _ Hp. destruct (load_ok _ _ _ Hl) as [d [js [Hd [Hj Hs]]]].
  subst document self. unfold every_uses_pinned in Hp. rewrite Hj in Hp.
  destruct js as [| b | z | s | l | jl]; try discriminate Hp.
  rewrite forallb_forall in Hp.
  unfold _check_for_3p_actions_without_hash.
  cbn [self_jobs jobs set_jobs keys bind].
  rewrite for_in_all_next; [reflexivity |].
  intros job Hjob. apply in_map_iff in Hjob. destruct Hjob as [[k j] [Ek Hin]].
  cbn [fst] in Ek. subst job.
  assert (Hk : In k (map fst jl)).
  { apply in_map_iff. exists (k, j). split; [reflexivity | exact Hin]. }
  destruct (lookup_key_in k jl Hk) as [j' [Hlk Hin']].
  specialize (Hp (k, j') Hin'). cbn [snd] in Hp.
  cbn [subscript]. rewrite Hlk. cbn [bind].
  unfold job_pinned in Hp. destruct j' as [| b | z | s | l | jd]; try discriminate Hp.
  cbn [getitem subscript].
  destruct (lookup "steps" jd) as [[| b | z | s | steps | sd] |]; try discriminate Hp.
  cbn [bind iter]. rewrite forallb_forall in Hp.
  rewrite for_in_all_next; [reflexivity |].
  intros step Hstep. apply pinned_step_goes_on. exact (Hp step Hstep).
Qed.

Lemma pinned_actions_pass_witness :
  exists self,
    load (__init__ [] false false) document_pinned = Ok self /\
    _check_for_3p_actions_without_hash self = Ok true.
Proof.
  eexists. split; [reflexivity |].
  apply (pinned_actions_pass [] false false document_pinned);
    vm_compute; reflexivity.
Defined.

(** ** Ignoring warnings *)

(** C8. On a document that passes the gate and on which every check of
    level FAIL that is not suppressed by name returns [True], the analyzer
    that ignores warnings returns a passing verdict with an empty failure
    list, whatever the checks of level WARN do. *)
Theorem warnings_only_document_passes (ign : list string) (vb : bool)
    (document : value) (self : Analyzer) :
  load (__init__ ign true vb) document = Ok self ->
  _action_has_required_elements self = Ok true ->
  (forall c, In c get_checks -> level_in c checks = Ok FAIL ->
     ~ In (drop_first c) ign -> call self c = Ok true) ->
  run_checks (__init__ ign true vb) document = Ok (reporting []).
Proof.
  intros Hl Hg Hfail. destruct (load_ok _ _ _ Hl) as [d [js [Hd [Hj Hs]]]].
  assert (Hjobs : getitem document "jobs" = Ok js).
  { subst document. unfold getitem, subscript. rewrite Hj. reflexivity. }
  assert (Hself : self = loaded ign true vb document js) by (subst self; reflexivity).
  clear Hs. subst self.
  assert (Hcall : forall c, In c get_checks ->
            skips (loaded ign true vb document js) c = false ->
            call (loaded ign true vb document js) c = Ok true).
  { intros c Hc Hs. unfold skips in Hs.
    cbn [ignore_warnings ignore_checks loaded andb] in Hs.
    apply orb_false_elim in Hs. destruct Hs as [Hw Hi].
    apply Hfail; [exact Hc | |].
    - destruct (registered_level c Hc) as [l El]. unfold warn in Hw. rewrite El in Hw.
      destruct l; [exact El | discriminate Hw].
    - intro Hin. apply in_strings_In in Hin. congruence. }
  unfold run_checks. rewrite (run_checks_traced_init ign true vb document js Hjobs), Hg.
  rewrite run_loop_returns.
  - unfold failures. rewrite filter_none; [reflexivity |].
    intros c Hc. destruct (skips (loaded ign true vb document js) c) eqn:Es;
      [reflexivity |].
    unfold failed. rewrite (Hcall c Hc Es). reflexivity.
  - apply incl_refl.
  - intros c Hc Es. exists true. exact (Hcall c Hc Es).
Qed.

Lemma warnings_only_document_passes_witness :
  run_checks (__init__ [] false false) document_inline_script =
    Ok (reporting ["_check_for_inline_script"]) /\
  run_checks (__init__ [] true false) document_inline_script = Ok (reporting []).
Proof.
  split; [vm_compute; reflexivity |].
  apply (warnings_only_document_passes [] false document_inline_script
           (loaded [] true false document_inline_script
              (VDict [("build", VDict [("runs-on", VStr "ubuntu-latest");
                                       ("steps", VList [VDict [("run", VStr "make test")]])])]))).
  - reflexivity.
  - vm_compute. reflexivity.
  - intros c Hc Hlevel _. cbn in Hc.
    repeat (destruct Hc as [Hc | Hc];
            [subst c; first [ discriminate Hlevel | vm_compute; reflexivity ] |]).
    contradiction.
Defined.

(** The same in terms of two runs: when the run of an analyzer that does not
    ignore warnings returns a failure list made of WARN checks only, the
    analyzer with the same settings that ignores warnings passes the
    document with an empty failure list. *)
Lemma warnings_only_run_passes (ign : list string) (vb : bool)
    (document : value) (v : verdict) :
  run_checks (__init__ ign false vb) document = Ok v ->
  (forall c, In c (fail_checks v) -> level_in c checks = Ok WARN) ->
  run_checks (__init__ ign true vb) document = Ok (reporting []).
Proof.
  intros Hrun Hwarn.
  destruct (run_checks_inv ign false vb document v Hrun) as [js [Hj [[Hg Hv] | [Hg Hl]]]].
  - unfold run_checks.
    rewrite (run_checks_gate_closed ign true vb document js Hj); [reflexivity |].
    rewrite <- Hg. apply gate_same_document.
  - destruct (run_loop_verdict _ v Hl) as [Hv Hret].
    assert (Hs : forall c, skips (loaded ign true vb document js) c = false ->
              warn c = false /\ skips (loaded ign false vb document js) c = false).
    { intros c. unfold skips. cbn [ignore_warnings ignore_checks loaded andb orb].
      intro H. apply orb_false_elim in H. exact H. }
    unfold run_checks.
    rewrite (run_checks_traced_init ign true vb document js Hj).
    rewrite (gate_same_document ign ign true false vb vb document js), Hg.
    rewrite run_loop_returns.
    + unfold failures. rewrite filter_none; [reflexivity |].
      intros c Hc.
      destruct (skips (loaded ign true vb document js) c) eqn:Es; [reflexivity |].
      destruct (Hs c Es) as [Hw Hs0]. cbn [negb andb].
      destruct (failed (loaded ign true vb document js) c) eqn:Ef; [| reflexivity].
      exfalso.
      assert (Hin : In c (fail_checks v)).
      { subst v. rewrite extend_start. cbn [fail_checks]. unfold failures.
        apply filter_In. split; [exact Hc |]. rewrite Hs0.
        rewrite (failed_same_document ign ign false true vb document js c), Ef.
        reflexivity. }
      specialize (Hwarn c Hin). unfold warn in Hw. rewrite Hwarn in Hw.
      discriminate Hw.
    + apply incl_refl.
    + intros c Hc Es. destruct (Hs c Es) as [_ Hs0].
      apply (returns_same_document ign ign false true vb document js c).
      exact (Hret c Hc Hs0).
Qed.

(** ** The [pull_request_target] trigger *)

(** C9. On every document that passes the gate the check for the
    [pull_request_target] trigger returns, and it fails exactly when the
    trigger under [on] includes [pull_request_target]: as the string itself,
    as an element of a sequence, or as a key of a mapping. *)
Theorem pull_request_target_iff (ign : list string) (iw vb : bool)
    (document : value) (self : Analyzer) :
  load (__init__ ign iw vb) document = Ok self ->
  _action_has_required_elements self = Ok true ->
  exists o b,
    getitem document "on" = Ok o /\
    _check_for_pull_request_target self = Ok b /\
    (b = false <-> trigger_includes "pull_request_target" o).
Proof.
  intros Hl Hg.
  destruct (gate_open_keys ign iw vb document self Hl Hg)
    as [d [n [o [js [Hd [Hs [_ [Ho _]]]]]]]].
  assert (Hon : getitem document "on" = Ok o).
  { subst document. unfold getitem, subscript. rewrite Ho. reflexivity. }
  destruct (pull_request_target_on self o) as [b [Hb Hiff]].
  { subst self. exact Hon. }
  exists o, b. repeat split; try assumption; apply Hiff.
Qed.

Lemma pull_request_target_iff_witness :
  exists self o b,
    load (__init__ [] false false) document_trigger_sequence = Ok self /\
    getitem document_trigger_sequence "on" = Ok o /\
    _check_for_pull_request_target self = Ok b /\
    (b = false <-> trigger_includes "pull_request_target" o).
Proof.
  eexists.
  destruct (pull_request_target_iff [] false false document_trigger_sequence _ eq_refl)
    as [o [b H]].
  - vm_compute. reflexivity.
  - exists o, b. split; [reflexivity | exact H].
Defined.

(** The three shapes of the trigger, evaluated. *)
Example pull_request_target_shapes :
  run_checks (__init__ [] false false) document_pull_request_target =
    Ok (reporting ["_check_for_pull_request_target"]) /\
  run_checks (__init__ [] false false) document_trigger_sequence =
    Ok (reporting ["_check_for_pull_request_target"]) /\
  run_checks (__init__ [] false false) document_trigger_mapping =
    Ok (reporting ["_check_for_pull_request_target"]).
Proof. repeat split; vm_compute; reflexivity. Qed.

(** ** A document with an empty [jobs] *)

(** C10. A document with [name], [on] and an empty [jobs] mapping passes
    the gate, and the checks that look at jobs and steps pass on it. When
    moreover its [permissions] has a shape of the data model, its trigger
    includes [pull_request_target] and that check is not suppressed, the run
    evaluates the check and returns a failing verdict that reports it. *)
Theorem empty_jobs_document_is_checked (ign : list string) (iw vb : bool)
    (d : list (string * value)) (n o : value) :
  lookup "name" d = Some n ->
  lookup "on" d = Some o ->
  lookup "jobs" d = Some (VDict []) ->
  let self := loaded ign iw vb (VDict d) (VDict []) in
  load (__init__ ign iw vb) (VDict d) = Ok self /\
  _action_has_required_elements self = Ok true /\
  (_check_for_3p_actions_without_hash self = Ok true /\
   _check_for_allow_unsecure_commands self = Ok true /\
   _check_for_cache_action_usage self = Ok true /\
   _check_for_inline_script self = Ok true /\
   _check_for_script_injection self = Ok true /\
   _check_for_self_hosted_runners self = Ok true /\
   _check_for_aws_configure_credentials_non_oidc self = Ok true /\
   _check_for_pull_request_create_or_approve self = Ok true) /\
  (permissions_shape (lookup "permissions" d) = true ->
   trigger_includes "pull_request_target" o ->
   ~ In "check_for_pull_request_target" ign ->
   In "_check_for_pull_request_target" (evaluated (__init__ ign iw vb) (VDict d)) /\
   exists v, run_checks (__init__ ign iw vb) (VDict d) = Ok v /\
     passed_all_checks v = false /\
     In "_check_for_pull_request_target" (fail_checks v)).
Proof.
  intros Hn Ho Hj self.
  assert (Hjobs : getitem (VDict d) "jobs" = Ok (VDict [])).
  { unfold getitem, subscript. rewrite Hj. reflexivity. }
  assert (Hgate : _action_has_required_elements self = Ok true).
  { unfold _action_has_required_elements, self.
    cbn [action loaded all_of contains bind]. rewrite Hn, Ho, Hj. reflexivity. }
  split; [exact (load_init ign iw vb (VDict d) (VDict []) Hjobs) |].
  split; [exact Hgate |].
  split; [repeat (split; [reflexivity |]); reflexivity |].
  intros Hp Hinc Hign.
  destruct (pull_request_target_on self o) as [b [Hb Hiff]].
  { unfold self, getitem, subscript. cbn [action loaded]. rewrite Ho. reflexivity. }
  assert (Hfalse : b = false) by (apply Hiff; exact Hinc). subst b.
  destruct (dangerous_write_permissions_no_jobs ign iw vb d Hp) as [w Hw].
  fold self in Hw.
  assert (Hret : forall c, In c get_checks -> skips self c = false -> returns self c).
  { intros c Hc _. cbn in Hc.
    repeat (destruct Hc as [Hc | Hc];
            [subst c; first [ exists true; reflexivity
                            | exists w; exact Hw
                            | exists false; exact Hb ] |]).
    contradiction. }
  assert (Hs : skips self "_check_for_pull_request_target" = false).
  { unfold skips, self. cbn [ignore_warnings ignore_checks loaded drop_first].
    replace (warn "_check_for_pull_request_target") with false by reflexivity.
    rewrite andb_false_r. cbn [orb].
    destruct (in_strings "check_for_pull_request_target" ign) eqn:E; [| reflexivity].
    apply in_strings_In in E. contradiction. }
  assert (Hreg : In "_check_for_pull_request_target" get_checks) by (cbn; tauto).
  split.
  - unfold evaluated.
    rewrite (run_checks_traced_init ign iw vb (VDict d) (VDict []) Hjobs).
    fold self. rewrite Hgate.
    rewrite (run_loop_trace self get_checks [] start (incl_refl _) Hret).
    cbn [app]. apply filter_In. split; [exact Hreg |]. rewrite Hs. reflexivity.
  - exists (extend start (failures self get_checks)).
    assert (Hin : In "_check_for_pull_request_target" (failures self get_checks)).
    { unfold failures. apply filter_In. split; [exact Hreg |].
      rewrite Hs. unfold failed.
      replace (call self "_check_for_pull_request_target")
        with (_check_for_pull_request_target self) by reflexivity.
      rewrite Hb. reflexivity. }
    split.
    + unfold run_checks.
      rewrite (run_checks_traced_init ign iw vb (VDict d) (VDict []) Hjobs).
      fold self. rewrite Hgate.
      exact (run_loop_returns self get_checks [] start (incl_refl _) Hret).
    + rewrite extend_start. cbn [passed_all_checks fail_checks].
      split; [| exact Hin].
      destruct (failures self get_checks); [contradiction | reflexivity].
Qed.

Lemma empty_jobs_document_is_checked_witness :
  In "_check_for_pull_request_target"
    (evaluated (__init__ [] false false) document_pull_request_target) /\
  exists v,
    run_checks (__init__ [] false false) document_pull_request_target = Ok v /\
    passed_all_checks v = false /\
    In "_check_for_pull_request_target" (fail_checks v).
Proof.
  refine (proj2 (proj2 (proj2
    (empty_jobs_document_is_checked [] false false
       [("name", VStr "ci"); ("on", VStr "pull_request_target"); ("jobs", VDict [])]
       (VStr "ci") (VStr "pull_request_target") eq_refl eq_refl eq_refl))) _ _ _).
  - reflexivity.
  - reflexivity.
  - cbn. tauto.
Defined.

(** * Further properties of the code *)

(** ** Scanning loops *)

Lemma for_in_scan {X : Type} (xs : list X)
    (body : X -> bool -> result (flow bool bool)) (hit : X -> bool) :
  (forall x, In x xs -> forall s, exists f, body x s = Ok f /\ scan_flow (hit x) s f) ->
  forall s, exists e, for_in xs body s = Ok e /\ scan_end (existsb hit xs) s e.
Proof.
  induction xs as [| x rest IH]; intros H s.
  - exists (Fell s). split; reflexivity.
  - assert (Hrest : forall y, In y rest -> forall s', exists f,
              body y s' = Ok f /\ scan_flow (hit y) s' f)
      by (intros y Hy; apply H; now right).
    specialize (IH Hrest).
    destruct (H x (or_introl eq_refl) s) as [f [Hf Hflow]].
    cbn [for_in existsb]. rewrite Hf. unfold scan_flow in Hflow.
    destruct (hit x); cbn [orb].
    + destruct Hflow as [-> | [-> | ->]].
      * destruct (IH false) as [e [He Hend]]. exists e. split; [exact He |].
        unfold scan_end in *. destruct (existsb hit rest); [exact Hend | now left].
      * exists (Fell false). split; [reflexivity | now left].
      * exists (Returned false). split; [reflexivity | now right].
    + subst f. exact (IH s).
Qed.

Lemma scan_end_finish (hit passed : bool) (e : loop_end bool bool) :
  scan_end hit passed e -> finish e = if hit then false else passed.
Proof.
  unfold scan_end. destruct hit; [intros [-> | ->] | intros ->]; reflexivity.
Qed.

Lemma scan_end_inner (hit passed : bool) (e : loop_end bool bool) :
  scan_end hit passed e -> scan_flow hit passed (inner e).
Proof.
  unfold scan_end, scan_flow. destruct hit.
  - intros [-> | ->]; cbn; tauto.
  - intros ->. reflexivity.
Qed.

Lemma existsb_eq_in {X : Type} (f g : X -> bool) (l : list X) :
  (forall x, In x l -> f x = g x) -> existsb f l = existsb g l.
Proof.
  induction l as [| x rest IH]; intro H; cbn.
  - reflexivity.
  - rewrite (H x (or_introl eq_refl)), IH; [reflexivity |].
    intros y Hy. apply H. now right.
Qed.

Lemma existsb_of_map {X Y : Type} (f : Y -> bool) (g : X -> Y) (l : list X) :
  existsb f (map g l) = existsb (fun x => f (g x)) l.
Proof.
  induction l as [| x rest IH]; cbn; [reflexivity | now rewrite IH].
Qed.

Lemma existsb_flat_map {X Y : Type} (f : Y -> bool) (g : X -> list Y) (l : list X) :
  existsb f (flat_map g l) = existsb (fun x => existsb f (g x)) l.
Proof.
  induction l as [| x rest IH]; cbn.
  - reflexivity.
  - now rewrite existsb_app, IH.
Qed.

(** In a dict with distinct keys every binding is found under its key. *)
Lemma lookup_distinct (d : list (string * value)) (k : string) (v : value) :
  distinct (map fst d) = true -> In (k, v) d -> lookup k d = Some v.
Proof.
  induction d as [| [k' v'] rest IH]; cbn [map fst distinct lookup]; intros Hd Hin.
  - contradiction.
  - apply andb_true_iff in Hd. destruct Hd as [Hn Hd].
    destruct (String.eqb k k') eqn:E.
    + apply String.eqb_eq in E. subst k'. destruct Hin as [Hin | Hin].
      * congruence.
      * exfalso. apply negb_true_iff in Hn.
        assert (Hk : in_strings k (map fst rest) = true).
        { apply in_strings_In. apply in_map_iff. exists (k, v). now split. }
        congruence.
    + destruct Hin as [Hin | Hin].
      * inversion Hin. subst. rewrite String.eqb_refl in E. discriminate E.
      * exact (IH Hd Hin).
Qed.

(** The loop over the jobs of a dict, for a body that scans a job. *)
Lemma job_scan (jl : list (string * value))
    (body : value -> bool -> result (flow bool bool)) (okj hitj : value -> bool) :
  distinct (map fst jl) = true ->
  forallb (fun kj => okj (snd kj)) jl = true ->
  (forall j, okj j = true -> forall s, exists f,
      body j s = Ok f /\ scan_flow (hitj j) s f) ->
  forall s, exists e,
    for_in (map (fun kv => VStr (fst kv)) jl)
      (fun job passed => j <- subscript (VDict jl) job ;; body j passed) s = Ok e /\
    scan_end (existsb (fun kj => hitj (snd kj)) jl) s e.
Proof.
  intros Hd Hok Hbody s.
  set (hit := fun job => match job with
                         | VStr k => match lookup k jl with
                                     | Some j => hitj j
                                     | None => false
                                     end
                         | _ => false
                         end).
  destruct (for_in_scan (map (fun kv => VStr (fst kv)) jl)
              (fun job passed => j <- subscript (VDict jl) job ;; body j passed) hit)
    with (s := s) as [e [He Hend]].
  - intros job Hjob s'. apply in_map_iff in Hjob. destruct Hjob as [[k j] [Ek Hin]].
    cbn [fst] in Ek. subst job. cbn [subscript hit].
    rewrite (lookup_distinct jl k j Hd Hin). cbn [bind].
    rewrite forallb_forall in Hok. exact (Hbody j (Hok (k, j) Hin) s').
  - exists e. split; [exact He |].
    rewrite existsb_of_map in Hend.
    rewrite (existsb_eq_in (fun kj => hitj (snd kj))
               (fun x => hit ((fun kv => VStr (fst kv)) x)) jl); [exact Hend |].
    intros [k j] Hin. cbn [fst snd hit].
    now rewrite (lookup_distinct jl k j Hd Hin).
Qed.

(** The loop over the steps of the jobs of a dict, as six checks write it,
    for a body that scans a step: the value returned is [False] exactly
    when some step is a hit. *)
Lemma step_scan (jl : list (string * value))
    (body : value -> bool -> result (flow bool bool)) (ok hit : value -> bool) :
  distinct (map fst jl) = true ->
  forallb (fun kj => job_steps_ok ok (snd kj)) jl = true ->
  (forall step, ok step = true -> forall s, exists f,
      body step s = Ok f /\ scan_flow (hit step) s f) ->
  (e <- for_in (map (fun kv => VStr (fst kv)) jl)
         (fun job passed =>
            j <- subscript (VDict jl) job ;;
            st <- getitem j "steps" ;;
            steps <- iter st ;;
            e <- for_in steps body passed ;;
            Ok (inner e)) true ;;
   Ok (finish e)) =
  Ok (negb (existsb hit (flat_map (fun kj => steps_of_job (snd kj)) jl))).
Proof.
  intros Hd Hok Hbody.
  destruct (job_scan jl
              (fun j passed =>
                 st <- getitem j "steps" ;;
                 steps <- iter st ;;
                 e <- for_in steps body passed ;;
                 Ok (inner e))
              (job_steps_ok ok) (fun j => existsb hit (steps_of_job j)) Hd Hok)
    with (s := true) as [e [He Hend]].
  - intros j Hj s. unfold job_steps_ok in Hj.
    destruct j as [| b | z | t | l | jd]; try discriminate Hj.
    cbn [getitem subscript steps_of_job].
    destruct (lookup "steps" jd) as [[| b | z | t | steps | sd] |]; try discriminate Hj.
    cbn [bind iter]. rewrite forallb_forall in Hj.
    destruct (for_in_scan steps body hit) with (s := s) as [e [He Hend]].
    + intros step Hstep s'. exact (Hbody step (Hj step Hstep) s').
    + rewrite He. cbn [bind]. eexists. split; [reflexivity |].
      apply scan_end_inner. exact Hend.
  - rewrite He. cbn [bind]. rewrite (scan_end_finish _ _ _ Hend).
    rewrite existsb_flat_map.
    destruct (existsb (fun kj => existsb hit (steps_of_job (snd kj))) jl); reflexivity.
Qed.

(** A loaded document of a given shape. *)
Lemma load_shape (ign : list string) (iw vb : bool) (document : value)
    (self : Analyzer) (okj : value -> bool) :
  load (__init__ ign iw vb) document = Ok self ->
  jobs_shape okj document = true ->
  exists d jl,
    document = VDict d /\ lookup "jobs" d = Some (VDict jl) /\
    self = loaded ign iw vb document (VDict jl) /\
    distinct (map fst jl) = true /\
    forallb (fun kj => okj (snd kj)) jl = true.
Proof.
  intros Hl Hs. destruct (load_ok _ _ _ Hl) as [d [js [Hd [Hj Hself]]]].
  subst document. unfold jobs_shape in Hs. rewrite Hj in Hs.
  destruct js as [| b | z | t | l | jl]; try discriminate Hs.
  apply andb_true_iff in Hs. destruct Hs as [H1 H2].
  subst self. exists d, jl. split; [reflexivity |]. split; [exact Hj |].
  split; [reflexivity |]. split; assumption.
Qed.

Lemma steps_of_jobs (d jl : list (string * value)) :
  lookup "jobs" d = Some (VDict jl) ->
  steps_of (VDict d) = flat_map (fun kj => steps_of_job (snd kj)) jl.
Proof. intro H. unfold steps_of. rewrite H. reflexivity. Qed.

(** ** The checks that scan the steps *)

Ltac scan_hit := eexists; split; [reflexivity | cbn; tauto].

Lemma inline_script_step (vb : bool) (step : value) :
  is_mapping step = true ->
  forall s : bool, exists f,
    (has <- contains "run" step ;;
     if has then
       (if vb then
          named <- contains "name" step ;;
          if named then getitem step "name" ;;; Ok tt else Ok tt
        else Ok tt) ;;;
       Ok (Next false)
     else Ok (Next s)) = Ok f /\
    scan_flow (has_field "run" step) s f.
Proof.
  intros Hm s. destruct step as [| b | z | t | l | sd]; try discriminate Hm.
  unfold has_field. cbn [field contains getitem subscript bind].
  destruct (lookup "run" sd); cbn [bind]; [| scan_hit].
  destruct vb; [destruct (lookup "name" sd) |]; scan_hit.
Qed.

(** X1. On a document whose jobs are mappings with a sequence of mappings
    as steps, the check for inline scripts returns, in verbose mode or not,
    and it fails exactly when some step has a [run]. *)
Theorem inline_script_iff (ign : list string) (iw vb : bool)
    (document : value) (self : Analyzer) :
  load (__init__ ign iw vb) document = Ok self ->
  steps_shape is_mapping document = true ->
  _check_for_inline_script self =
    Ok (negb (existsb (has_field "run") (steps_of document))).
Proof.
  intros Hl Hs.
  destruct (load_shape ign iw vb document self _ Hl Hs)
    as [d [jl [Hd [Hj [Hself [Hdist Hok]]]]]].
  subst document self. rewrite (steps_of_jobs d jl Hj).
  exact (step_scan jl _ is_mapping (has_field "run") Hdist Hok (inline_script_step vb)).
Qed.

Lemma inline_script_iff_witness :
  exists self,
    load (__init__ [] false true) document_inline_script = Ok self /\
    _check_for_inline_script self = Ok false.
Proof.
  eexists. split; [reflexivity |].
  apply (inline_script_iff [] false true document_inline_script);
    vm_compute; reflexivity.
Defined.

Lemma uses_step (r : regex) (on_hit : flow bool bool) (step : value) :
  text_or_absent "uses" step = true ->
  on_hit = Next false \/ on_hit = Break false ->
  forall s : bool, exists f,
    (has <- contains "uses" step ;;
     if has then
       uses <- getitem step "uses" ;;
       found <- search r uses ;;
       if found then Ok on_hit else Ok (Next s)
     else Ok (Next s)) = Ok f /\
    scan_flow (field_matches r "uses" step) s f.
Proof.
  intros Hok Hhit s. unfold text_or_absent in Hok.
  destruct step as [| b | z | t | l | sd]; try discriminate Hok.
  unfold field_matches. cbn [is_mapping andb field] in *.
  cbn [contains getitem subscript].
  destruct (lookup "uses" sd) as [[| b | z | t | l | ud] |]; try discriminate Hok;
    cbn [bind search]; [| scan_hit].
  destruct (search_chars r (chars t)); [| scan_hit].
  eexists. split; [reflexivity |]. cbn. destruct Hhit as [-> | ->]; tauto.
Qed.

(** X2. On a document whose steps are mappings with a string, or nothing,
    under [uses], the check for actions without hash fails exactly when
    the version pattern is found in the [uses] of some step. *)
Theorem actions_without_hash_iff (ign : list string) (iw vb : bool)
    (document : value) (self : Analyzer) :
  load (__init__ ign iw vb) document = Ok self ->
  steps_shape (text_or_absent "uses") document = true ->
  _check_for_3p_actions_without_hash self =
    Ok (negb (existsb (field_matches ACTION_WITH_VERSION_REGEX "uses")
                (steps_of document))).
Proof.
  intros Hl Hs.
  destruct (load_shape ign iw vb document self _ Hl Hs)
    as [d [jl [Hd [Hj [Hself [Hdist Hok]]]]]].
  subst document self. rewrite (steps_of_jobs d jl Hj).
  exact (step_scan jl _ (text_or_absent "uses")
           (field_matches ACTION_WITH_VERSION_REGEX "uses") Hdist Hok
           (fun step H => uses_step ACTION_WITH_VERSION_REGEX (Break false) step H
                            (or_intror eq_refl))).
Qed.

Lemma actions_without_hash_iff_witness :
  exists self,
    load (__init__ [] false false) document_pinned = Ok self /\
    _check_for_3p_actions_without_hash self = Ok true.
Proof.
  eexists. split; [reflexivity |].
  apply (actions_without_hash_iff [] false false document_pinned);
    vm_compute; reflexivity.
Defined.

(** X3. On such a document the check for the cache action fails exactly
    when the pattern of the cache action is found in the [uses] of some
    step. *)
Theorem cache_action_iff (ign : list string) (iw vb : bool)
    (document : value) (self : Analyzer) :
  load (__init__ ign iw vb) document = Ok self ->
  steps_shape (text_or_absent "uses") document = true ->
  _check_for_cache_action_usage self =
    Ok (negb (existsb (field_matches CACHE_ACTION_REGEX "uses") (steps_of document))).
Proof.
  intros Hl Hs.
  destruct (load_shape ign iw vb document self _ Hl Hs)
    as [d [jl [Hd [Hj [Hself [Hdist Hok]]]]]].
  subst document self. rewrite (steps_of_jobs d jl Hj).
  exact (step_scan jl _ (text_or_absent "uses")
           (field_matches CACHE_ACTION_REGEX "uses") Hdist Hok
           (fun step H => uses_step CACHE_ACTION_REGEX (Next false) step H
                            (or_introl eq_refl))).
Qed.

Lemma cache_action_iff_witness :
  exists self,
    load (__init__ [] false false) document_pinned = Ok self /\
    _check_for_cache_action_usage self = Ok true.
Proof.
  eexists. split; [reflexivity |].
  apply (cache_action_iff [] false false document_pinned);
    vm_compute; reflexivity.
Defined.

Lemma script_injection_step (step : value) :
  text_or_absent "run" step = true ->
  forall s : bool, exists f,
    (has <- contains "run" step ;;
     if has then
       script <- getitem step "run" ;;
       variable <- search DANGEROUS_GITHUB_CONTEXT_VARIABLE_REGEX script ;;
       if variable then Ok (Next false) else Ok (Next s)
     else Ok (Next s)) = Ok f /\
    scan_flow (field_matches DANGEROUS_GITHUB_CONTEXT_VARIABLE_REGEX "run" step) s f.
Proof.
  intros Hok s. unfold text_or_absent in Hok.
  destruct step as [| b | z | t | l | sd]; try discriminate Hok.
  unfold field_matches. cbn [is_mapping andb field] in *.
  cbn [contains getitem subscript].
  destruct (lookup "run" sd) as [[| b | z | t | l | ud] |]; try discriminate Hok;
    cbn [bind search]; [| scan_hit].
  destruct (search_chars DANGEROUS_GITHUB_CONTEXT_VARIABLE_REGEX (chars t)); scan_hit.
Qed.

(** X4. On a document whose steps are mappings with a string, or nothing,
    under [run], the check for script injection fails exactly when the
    pattern of a GitHub context expression is found in the [run] of some
    step. *)
Theorem script_injection_iff (ign : list string) (iw vb : bool)
    (document : value) (self : Analyzer) :
  load (__init__ ign iw vb) document = Ok self ->
  steps_shape (text_or_absent "run") document = true ->
  _check_for_script_injection self =
    Ok (negb (existsb (field_matches DANGEROUS_GITHUB_CONTEXT_VARIABLE_REGEX "run")
                (steps_of document))).
Proof.
  intros Hl Hs.
  destruct (load_shape ign iw vb document self _ Hl Hs)
    as [d [jl [Hd [Hj [Hself [Hdist Hok]]]]]].
  subst document self. rewrite (steps_of_jobs d jl Hj).
  exact (step_scan jl _ (text_or_absent "run")
           (field_matches DANGEROUS_GITHUB_CONTEXT_VARIABLE_REGEX "run") Hdist Hok
           script_injection_step).
Qed.

Lemma script_injection_iff_witness :
  exists self,
    load (__init__ [] false false) document_inline_script = Ok self /\
    _check_for_script_injection self = Ok true.
Proof.
  eexists. split; [reflexivity |].
  apply (script_injection_iff [] false false document_inline_script);
    vm_compute; reflexivity.
Defined.

Lemma pull_request_step (self : Analyzer) (step : value) :
  text_or_absent "run" step &&
  named_if (verbose self) (field_matches GH_CLI_PR_APPROVAL_REGEX "run") step = true ->
  forall s : bool, exists f,
    (has <- contains "run" step ;;
     if has then
       script <- getitem step "run" ;;
       found <- search GH_CLI_PR_APPROVAL_REGEX script ;;
       if found then
         info_step_name self step ;;;
         Ok (Next false)
       else Ok (Next s)
     else Ok (Next s)) = Ok f /\
    scan_flow (field_matches GH_CLI_PR_APPROVAL_REGEX "run" step) s f.
Proof.
  intros Hok s. apply andb_true_iff in Hok. destruct Hok as [Hok Hname].
  unfold text_or_absent in Hok.
  destruct step as [| b | z | t | l | sd]; try discriminate Hok.
  unfold named_if, has_field, field_matches, info_step_name in *.
  cbn [is_mapping andb field] in *. cbn [contains getitem subscript].
  destruct (lookup "run" sd) as [[| b | z | t | l | ud] |]; try discriminate Hok;
    cbn [bind search]; [| scan_hit].
  destruct (search_chars GH_CLI_PR_APPROVAL_REGEX (chars t)); [| scan_hit].
  destruct (verbose self); [| scan_hit].
  destruct (lookup "name" sd); [scan_hit | discriminate Hname].
Qed.

(** X5. On a document whose steps are mappings with a string, or nothing,
    under [run] and, in verbose mode, a [name] on the steps that create or
    approve a pull request, the check for such steps fails exactly when the
    pattern of the command is found in the [run] of some step. *)
Theorem pull_request_create_or_approve_iff (ign : list string) (iw vb : bool)
    (document : value) (self : Analyzer) :
  load (__init__ ign iw vb) document = Ok self ->
  steps_shape (fun step =>
                 text_or_absent "run" step &&
                 named_if vb (field_matches GH_CLI_PR_APPROVAL_REGEX "run") step)
    document = true ->
  _check_for_pull_request_create_or_approve self =
    Ok (negb (existsb (field_matches GH_CLI_PR_APPROVAL_REGEX "run")
                (steps_of document))).
Proof.
  intros Hl Hs.
  destruct (load_shape ign iw vb document self _ Hl Hs)
    as [d [jl [Hd [Hj [Hself [Hdist Hok]]]]]].
  subst document self. rewrite (steps_of_jobs d jl Hj).
  exact (step_scan jl _ _ (field_matches GH_CLI_PR_APPROVAL_REGEX "run") Hdist Hok
           (pull_request_step (loaded ign iw vb (VDict d) (VDict jl)))).
Qed.

Lemma unsecure_commands_step (self : Analyzer) (step : value) :
  env_ok step && named_if (verbose self) unsecure_env step = true ->
  forall s : bool, exists f,
    (has <- contains "env" step ;;
     unsecure <- (if has then
                    env <- getitem step "env" ;;
                    contains "ACTIONS_ALLOW_UNSECURE_COMMANDS" env
                  else Ok false) ;;
     if unsecure then
       info_step_name self step ;;;
       Ok (Return false)
     else Ok (Next s)) = Ok f /\
    scan_flow (unsecure_env step) s f.
Proof.
  intros Hok s. apply andb_true_iff in Hok. destruct Hok as [Hok Hname].
  unfold env_ok in Hok.
  destruct step as [| b | z | t | l | sd]; try discriminate Hok.
  unfold named_if, has_field, unsecure_env, info_step_name in *.
  cbn [is_mapping andb field] in *. cbn [contains getitem subscript].
  destruct (lookup "env" sd) as [[| b | z | t | l | env] |]; try discriminate Hok;
    cbn [bind contains]; [| scan_hit].
  destruct (lookup "ACTIONS_ALLOW_UNSECURE_COMMANDS" env); cbn [bind]; [| scan_hit].
  destruct (verbose self); [| scan_hit].
  destruct (lookup "name" sd); [scan_hit | discriminate Hname].
Qed.

(** X6. On a document whose steps are mappings with a mapping, or
    nothing, under [env] and, in verbose mode, a [name] on the steps that
    allow unsecure commands, the check for unsecure commands fails exactly
    when the [env] of some step has the key
    [ACTIONS_ALLOW_UNSECURE_COMMANDS], whatever its value. *)
Theorem allow_unsecure_commands_iff (ign : list string) (iw vb : bool)
    (document : value) (self : Analyzer) :
  load (__init__ ign iw vb) document = Ok self ->
  steps_shape (fun step => env_ok step && named_if vb unsecure_env step)
    document = true ->
  _check_for_allow_unsecure_commands self =
    Ok (negb (existsb unsecure_env (steps_of document))).
Proof.
  intros Hl Hs.
  destruct (load_shape ign iw vb document self _ Hl Hs)
    as [d [jl [Hd [Hj [Hself [Hdist Hok]]]]]].
  subst document self. rewrite (steps_of_jobs d jl Hj).
  exact (step_scan jl _ _ unsecure_env Hdist Hok
           (unsecure_commands_step (loaded ign iw vb (VDict d) (VDict jl)))).
Qed.

Lemma credentials_step (self : Analyzer) (step : value) :
  credentials_step_ok (verbose self) step = true ->
  forall s : bool, exists f,
    (has <- contains "uses" step ;;
     if has then
       uses <- getitem step "uses" ;;
       found <- search CONFIGURE_AWS_CREDS_ACTION_REGEX uses ;;
       if found then
         inputs <- getitem step "with" ;;
         names <- iter inputs ;;
         (if existsb (fun input => in_list input non_oidc_inputs) names
          then info_step_name self step
          else Ok tt) ;;;
         Ok (Next (if s then false else s))
       else Ok (Next s)
     else Ok (Next s)) = Ok f /\
    scan_flow (uses_configure_aws_credentials step) s f.
Proof.
  intros Hok s. unfold credentials_step_ok in Hok.
  apply andb_true_iff in Hok. destruct Hok as [Hok Hwith].
  unfold text_or_absent in Hok.
  destruct step as [| b | z | t | l | sd]; try discriminate Hok.
  unfold named_if, has_field, with_long_lived_credential, info_step_name,
    uses_configure_aws_credentials in *.
  cbn [is_mapping andb field] in *. cbn [contains getitem subscript].
  destruct (lookup "uses" sd) as [[| b | z | t | l | ud] |]; try discriminate Hok;
    cbn [bind search]; [| scan_hit].
  destruct (search_chars CONFIGURE_AWS_CREDS_ACTION_REGEX (chars t)); [| scan_hit].
  cbn [negb orb] in Hwith.
  destruct (lookup "with" sd) as [[| b | z | u | l | inputs] |]; try discriminate Hwith.
  cbn [bind iter andb] in *.
  assert (Hsame : existsb (fun input => in_list input non_oidc_inputs)
                    (map (fun kv => VStr (fst kv)) inputs) =
                  existsb (fun kv => in_strings (fst kv) non_oidc_inputs) inputs).
  { rewrite existsb_of_map. apply existsb_eq_in. intros [k v] _. reflexivity. }
  rewrite Hsame.
  assert (Hs : (if s then false else s) = false) by (destruct s; reflexivity).
  rewrite Hs.
  destruct (existsb (fun kv => in_strings (fst kv) non_oidc_inputs) inputs);
    [| scan_hit].
  destruct (verbose self); [| scan_hit].
  destruct (lookup "name" sd); [scan_hit | discriminate Hwith].
Qed.


Lemma pull_request_create_or_approve_iff_witness :
  exists self,
    load (__init__ [] false true) document_pull_request_create = Ok self /\
    _check_for_pull_request_create_or_approve self = Ok false.
Proof.
  eexists. split; [reflexivity |].
  apply (pull_request_create_or_approve_iff [] false true document_pull_request_create);
    vm_compute; reflexivity.
Defined.

Lemma allow_unsecure_commands_iff_witness :
  exists self,
    load (__init__ [] false true) document_unsecure_commands = Ok self /\
    _check_for_allow_unsecure_commands self = Ok false.
Proof.
  eexists. split; [reflexivity |].
  apply (allow_unsecure_commands_iff [] false true document_unsecure_commands);
    vm_compute; reflexivity.
Defined.


(** ** The checks that scan the jobs *)

Lemma write_scope_loop_text (s : string) (passed : bool) :
  s = "write-all" \/ s = "read-all" ->
  write_scope_loop (VStr s) passed = Ok (Fell passed).
Proof. intros [-> | ->]; reflexivity. Qed.

Lemma write_scope_loop_dict (pd : list (string * value)) (passed : bool) :
  write_scope_loop (VDict pd) passed =
    Ok (if grants_dangerous_write (Some (VDict pd)) then Returned false
        else Fell passed).
Proof.
  unfold write_scope_loop, grants_dangerous_write, dangerous_scopes.
  cbn [for_in contains getitem subscript bind existsb].
  repeat match goal with
         | |- context [lookup ?k pd] => destruct (lookup k pd); cbn [bind orb]
         | |- context [eq_str ?v ?s] => destruct (eq_str v s); cbn [bind orb]
         end; reflexivity.
Qed.

Lemma permissions_job (j : value) :
  job_permissions_ok j = true ->
  forall s : bool, exists f,
    (has <- contains "permissions" j ;;
     if has then
       permissions <- getitem j "permissions" ;;
       let passed := if eq_str permissions "write-all" then false else s in
       e <- write_scope_loop permissions passed ;;
       Ok (inner e)
     else Ok (Next s)) = Ok f /\
    scan_flow (grants_dangerous_write (field "permissions" j)) s f.
Proof.
  intros Hok s. unfold job_permissions_ok in Hok.
  destruct j as [| b | z | t | l | jd]; try discriminate Hok.
  cbn [is_mapping andb field] in *. cbn [contains getitem subscript].
  destruct (lookup "permissions" jd) as [[| b | z | t | l | pd] |];
    try discriminate Hok; cbn [bind].
  - cbn [permissions_shape] in Hok. apply orb_true_iff in Hok.
    destruct Hok as [H | H]; apply String.eqb_eq in H; subst t; scan_hit.
  - cbn [eq_str]. rewrite write_scope_loop_dict.
    destruct (grants_dangerous_write (Some (VDict pd))); cbn [bind inner]; scan_hit.
  - scan_hit.
Qed.

(** The value of the permissions check on a loaded document. *)
Lemma dangerous_write_permissions_value (ign : list string) (iw vb : bool)
    (d jl : list (string * value)) :
  permissions_shape (lookup "permissions" d) = true ->
  distinct (map fst jl) = true ->
  forallb (fun kj => job_permissions_ok (snd kj)) jl = true ->
  _check_for_dangerous_write_permissions (loaded ign iw vb (VDict d) (VDict jl)) =
    Ok (negb (grants_dangerous_write (lookup "permissions" d) ||
              existsb (fun kj => grants_dangerous_write (field "permissions" (snd kj))) jl)).
Proof.
  intros Hp Hdist Hok.
  assert (Hjobs : (e <- for_in (map (fun kv => VStr (fst kv)) jl)
                     (fun job passed =>
                        j <- subscript (VDict jl) job ;;
                        has <- contains "permissions" j ;;
                        if has then
                          permissions <- getitem j "permissions" ;;
                          let passed := if eq_str permissions "write-all" then false
                                        else passed in
                          e <- write_scope_loop permissions passed ;;
                          Ok (inner e)
                        else Ok (Next passed)) true ;;
                   Ok (finish e)) =
                  Ok (negb (existsb (fun kj => grants_dangerous_write
                                                 (field "permissions" (snd kj))) jl))).
  { destruct (job_scan jl _ job_permissions_ok
                (fun j => grants_dangerous_write (field "permissions" j))
                Hdist Hok permissions_job true) as [e [He Hend]].
    rewrite He. cbn [bind]. rewrite (scan_end_finish _ _ _ Hend).
    destruct (existsb (fun kj => grants_dangerous_write (field "permissions" (snd kj))) jl);
      reflexivity. }
  unfold _check_for_dangerous_write_permissions.
  cbn [action loaded contains getitem subscript] in *.
  destruct (lookup "permissions" d) as [[| b | z | t | l | pd] |];
    try discriminate Hp; cbn [bind].
  - cbn [permissions_shape] in Hp. apply orb_true_iff in Hp.
    destruct Hp as [H | H]; apply String.eqb_eq in H; subst t.
    + reflexivity.
    + exact Hjobs.
  - cbn [eq_str]. rewrite write_scope_loop_dict.
    destruct (grants_dangerous_write (Some (VDict pd))); cbn [bind orb].
    + reflexivity.
    + exact Hjobs.
  - exact Hjobs.
Qed.

(** X8. On a document whose [permissions], at the top and in every job, is
    absent, [read-all], [write-all] or a mapping, the check for dangerous
    write permissions fails exactly when the workflow or some job has
    [write-all] or gives [write] to one of contents, deployments, packages
    and actions. *)
Theorem dangerous_write_permissions_iff (ign : list string) (iw vb : bool)
    (document : value) (self : Analyzer) :
  load (__init__ ign iw vb) document = Ok self ->
  permissions_shape (field "permissions" document) = true ->
  jobs_shape job_permissions_ok document = true ->
  _check_for_dangerous_write_permissions self =
    Ok (negb (grants_dangerous_write (field "permissions" document) ||
              existsb (fun j => grants_dangerous_write (field "permissions" j))
                (jobs_of document))).
Proof.
  intros Hl Hp Hs.
  destruct (load_shape ign iw vb document self _ Hl Hs)
    as [d [jl [Hd [Hj [Hself [Hdist Hok]]]]]].
  subst document self. unfold jobs_of. cbn [field] in *.
  rewrite Hj, existsb_of_map.
  exact (dangerous_write_permissions_value ign iw vb d jl Hp Hdist Hok).
Qed.

Lemma dangerous_write_permissions_iff_witness :
  exists self,
    load (__init__ [] false false) document_job_write = Ok self /\
    _check_for_dangerous_write_permissions self = Ok false.
Proof.
  eexists. split; [reflexivity |].
  apply (dangerous_write_permissions_iff [] false false document_job_write);
    vm_compute; reflexivity.
Defined.

Lemma runners_job (j : value) :
  job_strategy_ok j = true ->
  forall s : bool, exists f,
    (has_strategy <- contains "strategy" j ;;
     has_matrix <- (if has_strategy then
                      strategy <- getitem j "strategy" ;;
                      contains "matrix" strategy
                    else Ok false) ;;
     f <- (if has_matrix then
             strategy <- getitem j "strategy" ;;
             matrix <- getitem strategy "matrix" ;;
             has_runner <- contains "runner" matrix ;;
             if has_runner then
               runner <- getitem matrix "runner" ;;
               match runner with
               | VList l =>
                   if any_non_default l then Ok (Break false) else Ok (Next s)
               | _ => Ok (Next s)
               end
             else Ok (Next s)
           else Ok (Next s)) ;;
     and_then f (fun passed =>
       has_runs_on <- contains "runs-on" j ;;
       if has_runs_on then
         runs_on <- getitem j "runs-on" ;;
         match runs_on with
         | VList l =>
             if any_non_default l then Ok (Return false) else Ok (Next passed)
         | VDict _ =>
             has_group <- contains "group" runs_on ;;
             if has_group then
               group <- getitem runs_on "group" ;;
               if negb (in_list group default_runners) then Ok (Break false)
               else Ok (Next passed)
             else Ok (Next passed)
         | VStr _ =>
             if negb (in_list runs_on default_runners) then Ok (Break false)
             else Ok (Next passed)
         | VNone | VBool _ | VInt _ => Ok (Next passed)
         end
       else Ok (Next passed))) = Ok f /\
    scan_flow (non_default_matrix j || non_default_runs_on j) s f.
Proof.
  intros Hok s. unfold job_strategy_ok in Hok.
  destruct j as [| b | z | t | l | jd]; try discriminate Hok.
  unfold non_default_matrix, matrix_runner, non_default_runs_on.
  cbn [is_mapping andb field] in *. cbn [contains getitem subscript].
  assert (Hruns : forall s' : bool, exists f,
            and_then (@Next bool bool s') (fun passed =>
              has_runs_on <- Ok (match lookup "runs-on" jd with
                                 | Some _ => true
                                 | None => false
                                 end) ;;
              if has_runs_on then
                runs_on <- match lookup "runs-on" jd with
                           | Some v => Ok v
                           | None => Raise KeyError
                           end ;;
                match runs_on with
                | VList l =>
                    if any_non_default l then Ok (Return false) else Ok (Next passed)
                | VDict _ =>
                    has_group <- contains "group" runs_on ;;
                    if has_group then
                      group <- getitem runs_on "group" ;;
                      if negb (in_list group default_runners) then Ok (Break false)
                      else Ok (Next passed)
                    else Ok (Next passed)
                | VStr _ =>
                    if negb (in_list runs_on default_runners) then Ok (Break false)
                    else Ok (Next passed)
                | VNone | VBool _ | VInt _ => Ok (Next passed)
                end
              else Ok (Next passed)) = Ok f /\
            scan_flow (match lookup "runs-on" jd with
                       | Some (VStr t) => negb (in_strings t default_runners)
                       | Some (VList l) => any_non_default l
                       | Some (VDict rd) =>
                           match lookup "group" rd with
                           | Some group => negb (in_list group default_runners)
                           | None => false
                           end
                       | _ => false
                       end) s' f).
  { intro s'. cbn [and_then].
    destruct (lookup "runs-on" jd) as [[| b | z | t | l | rd] |]; cbn [bind];
      try scan_hit.
    - change (in_list (VStr t) default_runners) with (in_strings t default_runners).
      destruct (negb (in_strings t default_runners)); scan_hit.
    - destruct (any_non_default l); scan_hit.
    - cbn [contains getitem subscript].
      destruct (lookup "group" rd) as [g |]; cbn [bind]; [| scan_hit].
      destruct (negb (in_list g default_runners)); scan_hit. }
  destruct (lookup "strategy" jd) as [[| b | z | t | l | sd] |]; try discriminate Hok;
    cbn [bind contains getitem subscript orb].
  - destruct (lookup "matrix" sd) as [[| b | z | t | l | md] |]; try discriminate Hok;
      cbn [bind contains getitem subscript orb]; [| exact (Hruns s)].
    destruct (lookup "runner" md) as [[| b | z | t | l | rd] |];
      cbn [bind orb]; try exact (Hruns s).
    destruct (any_non_default l); cbn [bind orb and_then]; [scan_hit | exact (Hruns s)].
  - exact (Hruns s).
Qed.

(** X9. On a document whose jobs are mappings with, when present, a
    mapping under [strategy] and under its [matrix], the check for
    self-hosted runners fails exactly when, in some job, the sequence
    [strategy.matrix.runner] or [runs-on] (a string, a sequence, or the
    [group] of a mapping) names something that is not one of the default
    runners. *)
Theorem self_hosted_runners_iff (ign : list string) (iw vb : bool)
    (document : value) (self : Analyzer) :
  load (__init__ ign iw vb) document = Ok self ->
  jobs_shape job_strategy_ok document = true ->
  _check_for_self_hosted_runners self =
    Ok (negb (existsb (fun j => non_default_matrix j || non_default_runs_on j)
                (jobs_of document))).
Proof.
  intros Hl Hs.
  destruct (load_shape ign iw vb document self _ Hl Hs)
    as [d [jl [Hd [Hj [Hself [Hdist Hok]]]]]].
  subst document self.
  destruct (job_scan jl _ job_strategy_ok
              (fun j => non_default_matrix j || non_default_runs_on j)
              Hdist Hok runners_job true) as [e [He Hend]].
  apply scan_end_finish in Hend.
  apply eq_trans with (y := e' <- Ok e ;; Ok (finish e')).
  - exact (f_equal (fun r => e' <- r ;; Ok (finish e')) He).
  - cbn [bind]. rewrite Hend. unfold jobs_of. rewrite Hj, existsb_of_map.
    destruct (existsb (fun x => non_default_matrix (snd x) || non_default_runs_on (snd x)) jl);
      reflexivity.
Qed.

Lemma self_hosted_runners_iff_witness :
  exists self,
    load (__init__ [] false false) document_self_hosted = Ok self /\
    _check_for_self_hosted_runners self = Ok false.
Proof.
  eexists. split; [reflexivity |].
  apply (self_hosted_runners_iff [] false false document_self_hosted);
    vm_compute; reflexivity.
Defined.

(** ** The precondition gate *)

Lemma gate_job (j : value) :
  is_mapping j = true ->
  forall s : bool, exists f,
    (has <- contains "steps" j ;;
     if negb has then Ok (Break false) else Ok (Next s)) = Ok f /\
    scan_flow (lacks_steps j) s f.
Proof.
  intros Hok s. destruct j as [| b | z | t | l | jd]; try discriminate Hok.
  unfold lacks_steps, has_field. cbn [field contains bind].
  destruct (lookup "steps" jd); scan_hit.
Qed.

Lemma gate_loop_value (jl : list (string * value)) (s0 : bool) :
  distinct (map fst jl) = true ->
  forallb (fun kj => is_mapping (snd kj)) jl = true ->
  (e <- for_in (map (fun kv => VStr (fst kv)) jl)
         (fun job passed =>
            j <- subscript (VDict jl) job ;;
            has <- contains "steps" j ;;
            if negb has then Ok (Break false) else Ok (Next passed)) s0 ;;
   Ok (finish e)) =
  Ok (if existsb (fun kj => lacks_steps (snd kj)) jl then false else s0).
Proof.
  intros Hdist Hok.
  destruct (job_scan jl _ is_mapping lacks_steps Hdist Hok gate_job s0) as [e [He Hend]].
  rewrite He. cbn [bind]. now rewrite (scan_end_finish _ _ _ Hend).
Qed.

(** The value of the gate on a loaded document. *)
Lemma gate_value (ign : list string) (iw vb : bool) (d jl : list (string * value)) :
  lookup "jobs" d = Some (VDict jl) ->
  distinct (map fst jl) = true ->
  forallb (fun kj => is_mapping (snd kj)) jl = true ->
  _action_has_required_elements (loaded ign iw vb (VDict d) (VDict jl)) =
    Ok (has_field "name" (VDict d) && has_field "on" (VDict d) &&
        negb (existsb (fun kj => lacks_steps (snd kj)) jl)).
Proof.
  intros Hj Hdist Hok.
  unfold _action_has_required_elements, has_field.
  cbn [action loaded all_of contains bind self_jobs jobs keys field].
  rewrite Hj.
  destruct (lookup "name" d); destruct (lookup "on" d); cbn [bind negb andb];
    refine (eq_trans (gate_loop_value jl _ Hdist Hok) _);
    destruct (existsb (fun kj => lacks_steps (snd kj)) jl); reflexivity.
Qed.

(** X10. On a document whose jobs are mappings the gate returns, and it is
    open exactly when the document has [name] and [on] and every job has
    [steps]; when it is closed the run passes the document with an empty
    failure list and evaluates no check, whatever else the document
    contains. *)
Theorem gate_iff (ign : list string) (iw vb : bool)
    (document : value) (self : Analyzer) :
  load (__init__ ign iw vb) document = Ok self ->
  jobs_shape is_mapping document = true ->
  let open := has_field "name" document && has_field "on" document &&
              negb (existsb lacks_steps (jobs_of document)) in
  _action_has_required_elements self = Ok open /\
  (open = false ->
   run_checks (__init__ ign iw vb) document = Ok (reporting []) /\
   evaluated (__init__ ign iw vb) document = []).
Proof.
  intros Hl Hs open.
  destruct (load_shape ign iw vb document self _ Hl Hs)
    as [d [jl [Hd [Hj [Hself [Hdist Hok]]]]]].
  assert (Hg : _action_has_required_elements self = Ok open).
  { subst document self open. unfold jobs_of. rewrite Hj, existsb_of_map.
    exact (gate_value ign iw vb d jl Hj Hdist Hok). }
  split; [exact Hg |].
  intro Hclosed. rewrite Hclosed in Hg. subst self.
  assert (Hjobs : getitem document "jobs" = Ok (VDict jl)).
  { subst document. unfold getitem, subscript. rewrite Hj. reflexivity. }
  unfold run_checks, evaluated.
  rewrite (run_checks_gate_closed ign iw vb document (VDict jl) Hjobs Hg).
  split; reflexivity.
Qed.

Lemma gate_iff_witness :
  run_checks (__init__ [] false false) document_without_name = Ok (reporting []) /\
  evaluated (__init__ [] false false) document_without_name = [].
Proof.
  refine (proj2 (gate_iff [] false false document_without_name _ eq_refl _) _).
  - vm_compute. reflexivity.
  - vm_compute. reflexivity.
Defined.

(** ** The verdict *)

Lemma evaluated_open (ign : list string) (iw vb : bool) (document js : value) :
  getitem document "jobs" = Ok js ->
  _action_has_required_elements (loaded ign iw vb document js) = Ok true ->
  evaluated (__init__ ign iw vb) document =
    fst (run_loop (loaded ign iw vb document js) get_checks [] start).
Proof.
  intros Hj Hg. unfold evaluated.
  now rewrite (run_checks_traced_init ign iw vb document js Hj), Hg.
Qed.

(** X11. A verdict that [run_checks] returns passes exactly when its
    failure list is empty; the failure list is a selection of [get_checks]
    in its order, without repetition; and every check in it has been
    evaluated. *)
Theorem verdict_invariants (ign : list string) (iw vb : bool)
    (document : value) (v : verdict) :
  run_checks (__init__ ign iw vb) document = Ok v ->
  passed_all_checks v = is_nil (fail_checks v) /\
  (exists keep, fail_checks v = filter keep get_checks) /\
  incl (fail_checks v) (evaluated (__init__ ign iw vb) document).
Proof.
  intro Hrun.
  destruct (run_checks_inv ign iw vb document v Hrun) as [js [Hj [[Hg Hv] | [Hg Hl]]]].
  - subst v. split; [reflexivity |]. split.
    + exists (fun _ => false). symmetry. apply filter_none. reflexivity.
    + intros c [].
  - destruct (run_loop_verdict _ v Hl) as [Hv Hret]. subst v.
    rewrite extend_start. cbn [passed_all_checks fail_checks].
    split; [reflexivity |]. split.
    + eexists. reflexivity.
    + rewrite (evaluated_open ign iw vb document js Hj Hg).
      rewrite (run_loop_trace _ get_checks [] start (incl_refl _) Hret). cbn [app].
      intros c Hc. unfold failures in Hc. apply filter_In in Hc.
      destruct Hc as [Hc Hf]. apply andb_true_iff in Hf. destruct Hf as [Hs _].
      apply filter_In. split; assumption.
Qed.

Lemma verdict_invariants_witness :
  incl ["_check_for_inline_script"]
    (evaluated (__init__ [] false false) document_inline_script).
Proof.
  exact (proj2 (proj2 (verdict_invariants [] false false document_inline_script
                         (reporting ["_check_for_inline_script"])
                         ltac:(vm_compute; reflexivity)))).
Defined.

(** X12. An analyzer that ignores warnings evaluates no check of level
    WARN, on any document and also when the run raises. *)
Theorem ignored_warnings_are_not_evaluated (ign : list string) (vb : bool)
    (document : value) (c : string) :
  In c (evaluated (__init__ ign true vb) document) ->
  level_in c checks = Ok FAIL.
Proof.
  intro Hev. unfold evaluated, run_checks_traced in Hev.
  destruct (load (__init__ ign true vb) document) as [self' | e] eqn:El;
    [| destruct Hev].
  destruct (load_ok _ _ _ El) as [d [js [_ [_ Hs]]]].
  destruct (_action_has_required_elements self') as [[|] | e]; try destruct Hev.
  destruct (run_loop_called self' get_checks [] start c Hev) as [[] | [_ [_ Hw]]].
  apply Hw. subst self'. reflexivity.
Qed.

Lemma ignored_warnings_are_not_evaluated_witness :
  level_in "_check_for_pull_request_target" checks = Ok FAIL.
Proof.
  apply (ignored_warnings_are_not_evaluated [] false document_pull_request_target
           "_check_for_pull_request_target").
  vm_compute. tauto.
Defined.

(** ** The settings *)

Lemma run_loop_same (self self' : Analyzer) (names called : list string) (v : verdict) :
  incl names get_checks ->
  (forall c, In c names -> skips self c = skips self' c) ->
  (forall c, In c names -> call self c = call self' c) ->
  run_loop self names called v = run_loop self' names called v.
Proof.
  revert called v. induction names as [| c rest IH]; intros called v Hreg Hs Hc.
  - reflexivity.
  - assert (Hin : In c get_checks) by (apply Hreg; now left).
    rewrite (run_loop_cons self c rest called v Hin),
            (run_loop_cons self' c rest called v Hin).
    rewrite <- (Hs c (or_introl eq_refl)), <- (Hc c (or_introl eq_refl)).
    assert (IH' : forall called' v', run_loop self rest called' v' =
                                     run_loop self' rest called' v').
    { intros called' v'. apply IH.
      - intros x Hx. apply Hreg. now right.
      - intros x Hx. apply Hs. now right.
      - intros x Hx. apply Hc. now right. }
    destruct (skips self c); [apply IH' |].
    destruct (call self c) as [[|] | e]; [apply IH' | apply IH' | reflexivity].
Qed.

Lemma run_checks_traced_raise (ign : list string) (iw vb : bool) (document : value)
    (e : exn) :
  getitem document "jobs" = Raise e ->
  run_checks_traced (__init__ ign iw vb) document = ([], Raise e).
Proof.
  intro H. unfold run_checks_traced, load. cbn [set_action action __init__].
  rewrite H. reflexivity.
Qed.

(** Two analyzers that skip the same checks and have the same verbosity
    run alike. *)
Lemma run_checks_same_skips (ign ign' : list string) (iw iw' vb : bool)
    (document : value) :
  (forall js c, In c get_checks ->
     skips (loaded ign iw vb document js) c = skips (loaded ign' iw' vb document js) c) ->
  run_checks_traced (__init__ ign iw vb) document =
  run_checks_traced (__init__ ign' iw' vb) document.
Proof.
  intro Hs. destruct (getitem document "jobs") as [js | e] eqn:Hj.
  - rewrite (run_checks_traced_init ign iw vb document js Hj),
            (run_checks_traced_init ign' iw' vb document js Hj).
    rewrite (gate_same_document ign ign' iw iw' vb vb document js).
    destruct (_action_has_required_elements (loaded ign' iw' vb document js))
      as [[|] | e]; try reflexivity.
    apply run_loop_same; [apply incl_refl | exact (Hs js) |].
    intros c _. apply call_same_document; reflexivity.
  - now rewrite !(run_checks_traced_raise _ _ _ _ e Hj).
Qed.

(** X13. A name in [ignore_checks] that is not the name of a check, an id
    of [get_checks] with its underscore for instance, changes nothing:
    the run evaluates the same checks and has the same result. *)
Theorem unknown_name_changes_nothing (name : string) (ign : list string)
    (iw vb : bool) (document : value) :
  (forall c, In c get_checks -> drop_first c <> name) ->
  run_checks_traced (__init__ (name :: ign) iw vb) document =
  run_checks_traced (__init__ ign iw vb) document.
Proof.
  intro Hname. apply run_checks_same_skips. intros js c Hc.
  unfold skips. cbn [ignore_warnings ignore_checks loaded in_strings existsb].
  rewrite (proj2 (String.eqb_neq (drop_first c) name) (Hname c Hc)). reflexivity.
Qed.

Lemma unknown_name_changes_nothing_witness :
  run_checks_traced (__init__ ["_check_for_inline_script"] false false)
    document_inline_script =
  run_checks_traced (__init__ [] false false) document_inline_script.
Proof.
  apply (unknown_name_changes_nothing "_check_for_inline_script" [] false false
           document_inline_script).
  intros c Hc. cbn in Hc.
  repeat (destruct Hc as [Hc | Hc]; [subst c; discriminate |]).
  contradiction.
Defined.

Lemma warning_names_warn (c : string) :
  In c get_checks -> in_strings (drop_first c) warning_names = warn c.
Proof.
  intro Hc. cbn in Hc.
  repeat (destruct Hc as [Hc | Hc]; [subst c; reflexivity |]).
  contradiction.
Qed.

(** X14. Ignoring warnings is the same as suppressing by name the four
    checks of level WARN: the two runs evaluate the same checks and have
    the same result, on every document. *)
Theorem ignore_warnings_as_names (ign : list string) (vb : bool) (document : value) :
  run_checks_traced (__init__ ign true vb) document =
  run_checks_traced (__init__ (warning_names ++ ign) false vb) document.
Proof.
  apply run_checks_same_skips. intros js c Hc.
  unfold skips, in_strings. cbn [ignore_warnings ignore_checks loaded andb orb].
  rewrite existsb_app. fold (in_strings (drop_first c) warning_names).
  now rewrite (warning_names_warn c Hc).
Qed.

(** X15. A document whose [jobs] is absent or is not a mapping gets no
    verdict: the run raises [TypeError] when the document is not a
    mapping, [KeyError] when it has no [jobs], [AttributeError] when its
    [jobs] is not a mapping, and no check is evaluated. *)
Theorem jobs_must_be_a_mapping (ign : list string) (iw vb : bool) (document : value) :
  jobs_mapping document = false ->
  run_checks_traced (__init__ ign iw vb) document = ([], Raise (jobs_error document)).
Proof.
  intro H. unfold jobs_mapping, jobs_error in *.
  destruct document as [| b | z | t | l | d];
    try (apply run_checks_traced_raise; reflexivity).
  cbn [field] in H. destruct (lookup "jobs" d) as [js |] eqn:Ej.
  - assert (Hj : getitem (VDict d) "jobs" = Ok js).
    { unfold getitem, subscript. rewrite Ej. reflexivity. }
    rewrite (run_checks_traced_init ign iw vb (VDict d) js Hj).
    unfold _action_has_required_elements.
    cbn [action loaded all_of contains bind self_jobs jobs].
    rewrite Ej.
    destruct js as [| b | z | t | l | jl]; try discriminate H;
      destruct (lookup "name" d); destruct (lookup "on" d); reflexivity.
  - apply run_checks_traced_raise. unfold getitem, subscript. rewrite Ej. reflexivity.
Qed.

Lemma jobs_must_be_a_mapping_witness :
  run_checks_traced (__init__ [] false false)
    (VDict [("name", VStr "ci"); ("on", VStr "push"); ("jobs", VNone)]) =
  ([], Raise AttributeError).
Proof.
  apply (jobs_must_be_a_mapping [] false false
           (VDict [("name", VStr "ci"); ("on", VStr "push"); ("jobs", VNone)])).
  reflexivity.
Defined.

(** ** Verbosity *)

Lemma for_in_refines {X S R : Type} (xs : list X)
    (b1 b2 : X -> S -> result (flow S R)) :
  (forall x s f, b1 x s = Ok f -> b2 x s = Ok f) ->
  forall s e, for_in xs b1 s = Ok e -> for_in xs b2 s = Ok e.
Proof.
  intro H. induction xs as [| x rest IH]; intros s e He; cbn [for_in] in *.
  - exact He.
  - destruct (b1 x s) as [f |] eqn:E1; [| discriminate He].
    rewrite (H x s f E1). destruct f; [apply IH; exact He | exact He | exact He].
Qed.

(** The loop over the steps of the jobs, for two bodies of which the
    second returns what the first returns. *)
Lemma steps_loop_refines (js : value) (b1 b2 : value -> bool -> result (flow bool bool)) :
  (forall step s f, b1 step s = Ok f -> b2 step s = Ok f) ->
  forall (ks : list value) (r : bool),
    (e <- for_in ks (fun job passed =>
            j <- subscript js job ;;
            st <- getitem j "steps" ;;
            steps <- iter st ;;
            e <- for_in steps b1 passed ;;
            Ok (inner e)) true ;;
     Ok (finish e)) = Ok r ->
    (e <- for_in ks (fun job passed =>
            j <- subscript js job ;;
            st <- getitem j "steps" ;;
            steps <- iter st ;;
            e <- for_in steps b2 passed ;;
            Ok (inner e)) true ;;
     Ok (finish e)) = Ok r.
Proof.
  intros H ks r Hr. apply bind_ok in Hr. destruct Hr as [e [He Hr]].
  assert (Hjob : forall job s f,
            (j <- subscript js job ;;
             st <- getitem j "steps" ;;
             steps <- iter st ;;
             e <- for_in steps b1 s ;;
             Ok (inner e)) = Ok f ->
            (j <- subscript js job ;;
             st <- getitem j "steps" ;;
             steps <- iter st ;;
             e <- for_in steps b2 s ;;
             Ok (inner e)) = Ok f).
  { intros job s f Hf.
    destruct (subscript js job) as [j |]; cbn [bind] in *; [| discriminate Hf].
    destruct (getitem j "steps") as [st |]; cbn [bind] in *; [| discriminate Hf].
    destruct (iter st) as [steps |]; cbn [bind] in *; [| discriminate Hf].
    apply bind_ok in Hf. destruct Hf as [e' [He' Hf]].
    rewrite (for_in_refines steps b1 b2 H s e' He'). exact Hf. }
  rewrite (for_in_refines ks _ _ Hjob true e He). exact Hr.
Qed.

Lemma inline_script_quiet (ign : list string) (iw : bool) (document js : value) (b : bool) :
  _check_for_inline_script (loaded ign iw true document js) = Ok b ->
  _check_for_inline_script (loaded ign iw false document js) = Ok b.
Proof.
  unfold _check_for_inline_script. cbn [self_jobs jobs loaded verbose bind].
  destruct (keys js) as [ks |]; cbn [bind]; [| discriminate].
  apply steps_loop_refines. intros step s f.
  destruct (contains "run" step) as [[|] |]; cbn [bind]; try (intro H; exact H).
  destruct (contains "name" step) as [[|] |]; cbn [bind]; try (intro H; exact H);
    try discriminate.
  destruct (getitem step "name"); cbn [bind]; [intro H; exact H | discriminate].
Qed.

Lemma allow_unsecure_commands_quiet (ign : list string) (iw : bool)
    (document js : value) (b : bool) :
  _check_for_allow_unsecure_commands (loaded ign iw true document js) = Ok b ->
  _check_for_allow_unsecure_commands (loaded ign iw false document js) = Ok b.
Proof.
  unfold _check_for_allow_unsecure_commands, info_step_name.
  cbn [self_jobs jobs loaded verbose bind].
  destruct (keys js) as [ks |]; cbn [bind]; [| discriminate].
  apply steps_loop_refines. intros step s f.
  destruct (contains "env" step) as [[|] |]; cbn [bind]; try (intro H; exact H).
  destruct (getitem step "env") as [env |]; cbn [bind]; try (intro H; exact H).
  destruct (contains "ACTIONS_ALLOW_UNSECURE_COMMANDS" env) as [[|] |]; cbn [bind];
    try (intro H; exact H).
  destruct (getitem step "name"); cbn [bind]; [intro H; exact H | discriminate].
Qed.

Lemma aws_credentials_quiet (ign : list string) (iw : bool)
    (document js : value) (b : bool) :
  _check_for_aws_configure_credentials_non_oidc (loaded ign iw true document js) = Ok b ->
  _check_for_aws_configure_credentials_non_oidc (loaded ign iw false document js) = Ok b.
Proof.
  unfold _check_for_aws_configure_credentials_non_oidc, info_step_name.
  cbn [self_jobs jobs loaded verbose bind].
  destruct (keys js) as [ks |]; cbn [bind]; [| discriminate].
  apply steps_loop_refines. intros step s f.
  destruct (contains "uses" step) as [[|] |]; cbn [bind]; try (intro H; exact H).
  destruct (getitem step "uses") as [uses |]; cbn [bind]; try (intro H; exact H).
  destruct (search CONFIGURE_AWS_CREDS_ACTION_REGEX uses) as [[|] |]; cbn [bind];
    try (intro H; exact H).
  destruct (getitem step "with") as [inputs |]; cbn [bind]; try (intro H; exact H).
  destruct (iter inputs) as [names |]; cbn [bind]; try (intro H; exact H).
  destruct (existsb (fun input => in_list input non_oidc_inputs) names);
    cbn [bind]; try (intro H; exact H).
  destruct (getitem step "name"); cbn [bind]; [intro H; exact H | discriminate].
Qed.

Lemma pull_request_quiet (ign : list string) (iw : bool)
    (document js : value) (b : bool) :
  _check_for_pull_request_create_or_approve (loaded ign iw true document js) = Ok b ->
  _check_for_pull_request_create_or_approve (loaded ign iw false document js) = Ok b.
Proof.
  unfold _check_for_pull_request_create_or_approve, info_step_name.
  cbn [self_jobs jobs loaded verbose bind].
  destruct (iter js) as [ks |]; cbn [bind]; [| discriminate].
  apply steps_loop_refines. intros step s f.
  destruct (contains "run" step) as [[|] |]; cbn [bind]; try (intro H; exact H).
  destruct (getitem step "run") as [script |]; cbn [bind]; try (intro H; exact H).
  destruct (search GH_CLI_PR_APPROVAL_REGEX script) as [[|] |]; cbn [bind];
    try (intro H; exact H).
  destruct (getitem step "name"); cbn [bind]; [intro H; exact H | discriminate].
Qed.

(** What a check returns in verbose mode it returns without it. *)
Lemma call_quiet (ign : list string) (iw : bool) (document js : value)
    (c : string) (b : bool) :
  call (loaded ign iw true document js) c = Ok b ->
  call (loaded ign iw false document js) c = Ok b.
Proof.
  unfold call. cbn [method_in Analyzer__dict__].
  destruct (String.eqb c "_action_has_required_elements"); [exact (fun H => H) |].
  destruct (String.eqb c "_check_for_3p_actions_without_hash"); [exact (fun H => H) |].
  destruct (String.eqb c "_check_for_inline_script"); [apply inline_script_quiet |].
  destruct (String.eqb c "_check_for_script_injection"); [exact (fun H => H) |].
  destruct (String.eqb c "_check_for_allow_unsecure_commands");
    [apply allow_unsecure_commands_quiet |].
  destruct (String.eqb c "_check_for_pull_request_target"); [exact (fun H => H) |].
  destruct (String.eqb c "_check_for_cache_action_usage"); [exact (fun H => H) |].
  destruct (String.eqb c "_check_for_dangerous_write_permissions");
    [exact (fun H => H) |].
  destruct (String.eqb c "_check_for_self_hosted_runners"); [exact (fun H => H) |].
  destruct (String.eqb c "_check_for_aws_configure_credentials_non_oidc");
    [apply aws_credentials_quiet |].
  destruct (String.eqb c "_check_for_pull_request_create_or_approve");
    [apply pull_request_quiet | discriminate].
Qed.

Lemma run_loop_refines (self self' : Analyzer) (names called : list string)
    (v v' : verdict) :
  incl names get_checks ->
  (forall c, In c names -> skips self' c = skips self c) ->
  (forall c b, call self c = Ok b -> call self' c = Ok b) ->
  snd (run_loop self names called v) = Ok v' ->
  run_loop self' names called v = run_loop self names called v.
Proof.
  revert called v. induction names as [| c rest IH]; intros called v Hreg Hs Hc Hrun.
  - reflexivity.
  - assert (Hin : In c get_checks) by (apply Hreg; now left).
    assert (Hreg' : incl rest get_checks) by (intros x Hx; apply Hreg; now right).
    assert (Hs' : forall x, In x rest -> skips self' x = skips self x)
      by (intros x Hx; apply Hs; now right).
    rewrite (run_loop_cons self c rest called v Hin) in *.
    rewrite (run_loop_cons self' c rest called v Hin).
    rewrite (Hs c (or_introl eq_refl)).
    destruct (skips self c); [exact (IH _ _ Hreg' Hs' Hc Hrun) |].
    destruct (call self c) as [b | e] eqn:Ec; [| discriminate Hrun].
    rewrite (Hc c b Ec). destruct b; exact (IH _ _ Hreg' Hs' Hc Hrun).
Qed.

(** X16. Verbosity changes no verdict: when the run of a verbose analyzer
    returns, the run of the same analyzer without verbosity evaluates the
    same checks and returns the same verdict. *)
Theorem verbosity_changes_no_verdict (ign : list string) (iw : bool)
    (document : value) (v : verdict) :
  run_checks (__init__ ign iw true) document = Ok v ->
  run_checks_traced (__init__ ign iw false) document =
  run_checks_traced (__init__ ign iw true) document.
Proof.
  intro Hrun.
  destruct (run_checks_inv ign iw true document v Hrun) as [js [Hj [[Hg Hv] | [Hg Hl]]]];
    rewrite (run_checks_traced_init ign iw false document js Hj),
            (run_checks_traced_init ign iw true document js Hj),
            (gate_same_document ign ign iw iw false true document js), Hg.
  - reflexivity.
  - apply (run_loop_refines _ _ get_checks [] start v (incl_refl _)).
    + intros c _. reflexivity.
    + intros c b. apply call_quiet.
    + exact Hl.
Qed.

Lemma verbosity_changes_no_verdict_witness :
  run_checks_traced (__init__ [] false false) document_unsecure_commands =
  run_checks_traced (__init__ [] false true) document_unsecure_commands.
Proof.
  apply (verbosity_changes_no_verdict [] false document_unsecure_commands
           (reporting ["_check_for_allow_unsecure_commands"; "_check_for_inline_script"])).
  vm_compute. reflexivity.
Defined.

Lemma for_in_raises {X S R : Type} (xs : list X)
    (body : X -> S -> result (flow S R)) (hit : X -> bool) (e : exn) :
  (forall x s, In x xs ->
     body x s = if hit x then Raise e else Ok (Next s)) ->
  existsb hit xs = true ->
  forall s, for_in xs body s = Raise e.
Proof.
  induction xs as [| x rest IH]; intros H Hex s; cbn [for_in existsb] in *.
  - discriminate Hex.
  - rewrite (H x s (or_introl eq_refl)).
    destruct (hit x); [reflexivity |].
    apply IH; [| exact Hex]. intros y s' Hy. apply H. now right.
Qed.

Lemma forallb_existsb_false {X : Type} (f : X -> bool) (l : list X) :
  existsb f l = false -> forall x, In x l -> f x = false.
Proof.
  induction l as [| y rest IH]; cbn; intros H x Hx.
  - contradiction.
  - apply orb_false_elim in H. destruct H as [Hy Hr].
    destruct Hx as [Hx | Hx]; [now subst | exact (IH Hr x Hx)].
Qed.

(** X17. In verbose mode the check for unsecure commands needs the name of
    the step it reports: on a document whose steps that allow unsecure
    commands have no [name], and that has such a step, the check raises
    [KeyError], where the check without verbosity returns [False]. *)
Theorem unsecure_step_without_name_raises (ign : list string) (iw : bool)
    (document : value) (self : Analyzer) :
  load (__init__ ign iw true) document = Ok self ->
  steps_shape env_ok document = true ->
  existsb unsecure_env (steps_of document) = true ->
  (forall step, In step (steps_of document) ->
     unsecure_env step = true -> has_field "name" step = false) ->
  _check_for_allow_unsecure_commands self = Raise KeyError.
Proof.
  intros Hl Hs Hex Hname.
  destruct (load_shape ign iw true document self _ Hl Hs)
    as [d [jl [Hd [Hj [Hself [Hdist Hok]]]]]].
  subst document self. rewrite (steps_of_jobs d jl Hj) in *.
  unfold _check_for_allow_unsecure_commands.
  cbn [self_jobs jobs loaded keys bind].
  rewrite (for_in_raises (map (fun kv => VStr (fst kv)) jl) _
             (fun job => match job with
                         | VStr k => match lookup k jl with
                                     | Some j => existsb unsecure_env (steps_of_job j)
                                     | None => false
                                     end
                         | _ => false
                         end) KeyError); [reflexivity | |].
  - intros job s Hjob. apply in_map_iff in Hjob. destruct Hjob as [[k j] [Ek Hin]].
    cbn [fst] in Ek. subst job. cbn [subscript].
    rewrite (lookup_distinct jl k j Hdist Hin). cbn [bind].
    rewrite forallb_forall in Hok. specialize (Hok (k, j) Hin). cbn [snd] in Hok.
    unfold job_steps_ok in Hok.
    destruct j as [| b | z | t | l | jd]; try discriminate Hok.
    cbn [getitem subscript steps_of_job] in *.
    destruct (lookup "steps" jd) as [[| b | z | t | steps | sd] |] eqn:Es;
      try discriminate Hok.
    cbn [bind iter]. rewrite forallb_forall in Hok.
    assert (Hbody : forall step s', In step steps ->
              (has <- contains "env" step ;;
               unsecure <- (if has then
                              env <- getitem step "env" ;;
                              contains "ACTIONS_ALLOW_UNSECURE_COMMANDS" env
                            else Ok false) ;;
               if unsecure then
                 info_step_name (loaded ign iw true (VDict d) (VDict jl)) step ;;;
                 Ok (Return false)
               else Ok (Next s')) =
              if unsecure_env step then Raise KeyError else Ok (@Next bool bool s')).
    { intros step s' Hstep.
      assert (Hn : unsecure_env step = true -> has_field "name" step = false).
      { apply Hname. apply in_flat_map. exists (k, VDict jd). split; [exact Hin |].
        cbn [snd steps_of_job]. rewrite Es. exact Hstep. }
      specialize (Hok step Hstep). unfold env_ok in Hok.
      destruct step as [| b | z | t | l | sd]; try discriminate Hok.
      unfold unsecure_env, has_field, info_step_name in *.
      cbn [is_mapping andb field verbose loaded] in *. cbn [contains getitem subscript].
      destruct (lookup "env" sd) as [[| b | z | t | l | env] |]; try discriminate Hok;
        cbn [bind contains]; [| reflexivity].
      destruct (lookup "ACTIONS_ALLOW_UNSECURE_COMMANDS" env); cbn [bind]; [| reflexivity].
      destruct (lookup "name" sd); [| reflexivity].
      specialize (Hn eq_refl). discriminate Hn. }
    destruct (existsb unsecure_env steps) eqn:Eh.
    + rewrite (for_in_raises steps _ unsecure_env KeyError); [reflexivity | | exact Eh].
      intros step s' Hstep. exact (Hbody step s' Hstep).
    + rewrite for_in_all_next; [reflexivity |].
      intros step Hstep. rewrite (Hbody step s Hstep).
      now rewrite (forallb_existsb_false _ _ Eh step Hstep).
  - rewrite existsb_flat_map in Hex. rewrite existsb_of_map.
    rewrite <- Hex. apply existsb_eq_in. intros [k j] Hin. cbn [fst snd].
    now rewrite (lookup_distinct jl k j Hdist Hin).
Qed.

Lemma unsecure_step_without_name_raises_witness :
  exists self,
    load (__init__ [] false true) document_unsecure_unnamed = Ok self /\
    _check_for_allow_unsecure_commands self = Raise KeyError.
Proof.
  eexists. split; [reflexivity |].
  apply (unsecure_step_without_name_raises [] false document_unsecure_unnamed).
  - reflexivity.
  - vm_compute. reflexivity.
  - vm_compute. reflexivity.
  - intros step Hstep _. cbn in Hstep. destruct Hstep as [Hstep | []].
    subst step. reflexivity.
Defined.

(** ** Completeness of the matcher *)

Lemma matches_nil_nullable (r : regex) (s : list ascii) :
  matches r s -> s = [] -> nullable r = true.
Proof.
  intro H. induction H as [| p a Hp | r1 r2 s1 s2 H1 IH1 H2 IH2 | r1 r2 s H IH
                           | r1 r2 s H IH | r | r s1 s2 H1 IH1 H2 IH2]; intro E; cbn.
  - reflexivity.
  - discriminate E.
  - apply app_eq_nil in E. destruct E as [E1 E2]. now rewrite (IH1 E1), (IH2 E2).
  - now rewrite (IH E).
  - rewrite (IH E). apply orb_true_r.
  - reflexivity.
  - reflexivity.
Qed.

Lemma seq_complete (r1 r2 : regex) (s : list ascii) :
  matches (Seq r1 r2) s -> matches (seq r1 r2) s.
Proof.
  intro H. destruct r1; cbn; try exact H.
  - apply matches_seq_inv in H. destruct H as [s1 [s2 [_ [H1 _]]]]. inversion H1.
  - apply matches_seq_inv in H. destruct H as [s1 [s2 [E [H1 H2]]]].
    inversion H1. subst. exact H2.
Qed.

Lemma alt_complete (r1 r2 : regex) (s : list ascii) :
  matches (Or r1 r2) s -> matches (alt r1 r2) s.
Proof.
  intro H.
  assert (H' : matches r1 s \/ matches r2 s).
  { inversion H; subst; [now left | now right]. }
  destruct r1, r2; cbn; try exact H; destruct H' as [H' | H'];
    solve [exact H' | inversion H'].
Qed.

Lemma deriv_complete (r : regex) (s : list ascii) :
  matches r s -> forall a t, s = a :: t -> matches (deriv a r) t.
Proof.
  intro H. induction H as [| p c Hp | r1 r2 s1 s2 H1 IH1 H2 IH2 | r1 r2 s H IH
                           | r1 r2 s H IH | r | r s1 s2 H1 IH1 H2 IH2];
    intros a t E; cbn [deriv].
  - discriminate E.
  - inversion E. subst. rewrite Hp. constructor.
  - destruct s1 as [| b s1'].
    + cbn [app] in E. rewrite (matches_nil_nullable r1 [] H1 eq_refl).
      apply alt_complete. apply m_or_r. exact (IH2 a t E).
    + cbn [app] in E. inversion E. subst b t.
      assert (Hl : matches (seq (deriv a r1) r2) (s1' ++ s2)).
      { apply seq_complete. constructor; [exact (IH1 a s1' eq_refl) | exact H2]. }
      destruct (nullable r1); [apply alt_complete; apply m_or_l; exact Hl | exact Hl].
  - apply alt_complete. apply m_or_l. exact (IH a t E).
  - apply alt_complete. apply m_or_r. exact (IH a t E).
  - discriminate E.
  - destruct s1 as [| b s1'].
    + cbn [app] in E. exact (IH2 a t E).
    + cbn [app] in E. inversion E. subst b t.
      apply seq_complete. constructor; [exact (IH1 a s1' eq_refl) | exact H2].
Qed.

Lemma match_here_complete (m : list ascii) :
  forall r t, matches r m -> match_here r (m ++ t) = true.
Proof.
  induction m as [| a m IH]; intros r t H.
  - cbn [app]. destruct t; cbn [match_here];
      now rewrite (matches_nil_nullable r [] H eq_refl).
  - cbn [app match_here]. rewrite (IH _ t (deriv_complete r _ H a m eq_refl)).
    apply orb_true_r.
Qed.

(** A text in which a substring is in the language of the pattern is
    found by the search. *)
Lemma search_chars_complete (r : regex) (p m t : list ascii) :
  matches r m -> search_chars r (p ++ m ++ t) = true.
Proof.
  intro H. induction p as [| a p IH].
  - cbn [app]. destruct (m ++ t) eqn:E; cbn [search_chars];
      rewrite <- E, (match_here_complete m r t H); reflexivity.
  - cbn [app search_chars]. rewrite IH. apply orb_true_r.
Qed.

Lemma search_chars_iff (r : regex) (s : list ascii) :
  search_chars r s = true <-> exists p m t, s = p ++ m ++ t /\ matches r m.
Proof.
  split.
  - apply search_chars_sound.
  - intros [p [m [t [E H]]]]. subst s. now apply search_chars_complete.
Qed.

(** ** The languages of the patterns *)

Lemma matches_or_inv (r1 r2 : regex) (s : list ascii) :
  matches (Or r1 r2) s -> matches r1 s \/ matches r2 s.
Proof. intro H. inversion H; subst; [now left | now right]. Qed.

Lemma matches_lit (l m : list ascii) : matches (Lit_chars l) m <-> m = l.
Proof.
  revert m. induction l as [| a l IH]; intro m; cbn [Lit_chars].
  - split; intro H; [now inversion H | subst; constructor].
  - split; intro H.
    + apply matches_seq_inv in H. destruct H as [s1 [s2 [E [H1 H2]]]].
      apply matches_chr_inv in H1. apply IH in H2. now subst.
    + subst m. change (a :: l) with ([a] ++ l). constructor.
      * constructor. apply Ascii.eqb_refl.
      * now apply IH.
Qed.

Lemma matches_star_class (p : ascii -> bool) (s : list ascii) :
  matches (Star (Class p)) s <-> forallb p s = true.
Proof.
  split.
  - intro H. remember (Star (Class p)) as r eqn:Er.
    induction H as [| q c Hq | r1 r2 s1 s2 H1 IH1 H2 IH2 | r1 r2 s H IH
                    | r1 r2 s H IH | r0 | r0 s1 s2 H1 IH1 H2 IH2]; try discriminate Er.
    + reflexivity.
    + inversion Er. subst r0. apply matches_class_inv in H1.
      destruct H1 as [c [-> Hc]]. cbn [app forallb]. now rewrite Hc, (IH2 eq_refl).
  - induction s as [| a s IH]; cbn [forallb]; intro H.
    + constructor.
    + apply andb_true_iff in H. destruct H as [Ha Hs].
      change (a :: s) with ([a] ++ s). constructor; [now constructor | exact (IH Hs)].
Qed.

Lemma matches_plus_class (p : ascii -> bool) (s : list ascii) :
  matches (Plus (Class p)) s <-> s <> [] /\ forallb p s = true.
Proof.
  unfold Plus. split.
  - intro H. apply matches_seq_inv in H. destruct H as [s1 [s2 [E [H1 H2]]]].
    apply matches_class_inv in H1. destruct H1 as [c [-> Hc]].
    apply matches_star_class in H2. subst s. cbn [app forallb].
    split; [discriminate | now rewrite Hc, H2].
  - intros [Hn H]. destruct s as [| a s]; [contradiction |].
    cbn [forallb] in H. apply andb_true_iff in H. destruct H as [Ha Hs].
    change (a :: s) with ([a] ++ s).
    constructor; [now constructor | now apply matches_star_class].
Qed.

Lemma matches_times_class (p : ascii -> bool) (n : nat) (s : list ascii) :
  matches (Times n (Class p)) s <-> List.length s = n /\ forallb p s = true.
Proof.
  revert s. induction n as [| n IH]; intro s; cbn [Times].
  - split.
    + intro H. inversion H. split; reflexivity.
    + intros [Hl _]. destruct s; [constructor | discriminate Hl].
  - split.
    + intro H. apply matches_seq_inv in H. destruct H as [s1 [s2 [E [H1 H2]]]].
      apply matches_class_inv in H1. destruct H1 as [c [-> Hc]].
      apply IH in H2. destruct H2 as [Hl Hf]. subst s. cbn [app List.length forallb].
      now rewrite Hl, Hc, Hf.
    + intros [Hl Hf]. destruct s as [| a s]; [discriminate Hl |].
      cbn [List.length forallb] in *. apply andb_true_iff in Hf. destruct Hf as [Ha Hs].
      change (a :: s) with ([a] ++ s). constructor; [now constructor |].
      apply IH. split; [now inversion Hl | exact Hs].
Qed.

(** A text is in the language of [v\d+(\.\d+)?(\.\d+)?] only if it starts
    with [v] and a digit, and [v] with a digit is in it. *)
Lemma matches_version_tag (m : list ascii) :
  matches VERSION_TAG m -> exists d t, m = "v"%char :: d :: t /\ is_digit d = true.
Proof.
  unfold VERSION_TAG. intro H.
  apply matches_seq_inv in H. destruct H as [v_ [s1 [E1 [Hv H]]]].
  apply matches_seq_inv in H. destruct H as [digits [s2 [E2 [Hd _]]]].
  apply matches_chr_inv in Hv. apply matches_plus_class in Hd. destruct Hd as [Hn Hd].
  destruct digits as [| d ds]; [contradiction |].
  cbn [forallb] in Hd. apply andb_true_iff in Hd. destruct Hd as [Hd _].
  subst. exists d, (ds ++ s2). split; [reflexivity | exact Hd].
Qed.

Lemma version_tag_matches (d : ascii) :
  is_digit d = true -> matches VERSION_TAG ["v"%char; d].
Proof.
  intro Hd. unfold VERSION_TAG, Opt.
  change ["v"%char; d] with (["v"%char] ++ ([d] ++ ([] ++ []))).
  constructor; [constructor; reflexivity |].
  constructor; [apply matches_plus_class; cbn; rewrite Hd; split; [discriminate | reflexivity] |].
  constructor; apply m_or_r; constructor.
Qed.

(** X18. The pattern of the pinning check is found in a text exactly when
    the text contains a character of [\w-], a slash, one or more characters
    of [\w-], and [@v] followed by a digit: what precedes the last character
    of the owner and what follows the first digit is not looked at. *)
Theorem version_pattern_iff (s : list ascii) :
  search_chars ACTION_WITH_VERSION_REGEX s = true <-> version_reference s.
Proof.
  rewrite search_chars_iff. unfold version_reference. split.
  - intros [p [m [t [Es H]]]]. unfold ACTION_WITH_VERSION_REGEX in H.
    apply matches_seq_inv in H. destruct H as [owner [s1 [E1 [Ho H]]]].
    apply matches_seq_inv in H. destruct H as [slash [s2 [E2 [Hs H]]]].
    apply matches_seq_inv in H. destruct H as [repo [s3 [E3 [Hr H]]]].
    apply matches_seq_inv in H. destruct H as [at_ [s4 [E4 [Ha Hv]]]].
    apply matches_chr_inv in Hs. apply matches_chr_inv in Ha.
    apply matches_version_tag in Hv. destruct Hv as [d [u [Ev Hd]]].
    apply matches_plus_class in Ho. destruct Ho as [Hon Ho].
    apply matches_plus_class in Hr. destruct Hr as [Hrn Hr].
    destruct (exists_last Hon) as [front [o Eo]].
    subst. rewrite forallb_app in Ho. apply andb_true_iff in Ho.
    destruct Ho as [_ Ho]. cbn [forallb] in Ho. rewrite andb_true_r in Ho.
    exists (p ++ front), o, repo, d, (u ++ t).
    split; [| repeat split; assumption].
    repeat rewrite <- app_assoc. cbn [app]. reflexivity.
  - intros [p [o [repo [d [t [Es [Ho [Hrn [Hr Hd]]]]]]]]].
    exists p, ([o] ++ ["/"%char] ++ repo ++ ["@"%char] ++ ["v"%char; d]), t.
    split.
    + subst s. repeat rewrite <- app_assoc. cbn [app]. reflexivity.
    + unfold ACTION_WITH_VERSION_REGEX.
      constructor; [apply matches_plus_class; cbn [forallb]; rewrite Ho;
                    split; [discriminate | reflexivity] |].
      constructor; [constructor; reflexivity |].
      constructor; [apply matches_plus_class; split; assumption |].
      constructor; [constructor; reflexivity |].
      apply version_tag_matches. exact Hd.
Qed.

Lemma action_pattern_iff (name : list ascii) (s : list ascii) :
  search_chars (Seq (Lit_chars (name ++ ["@"%char])) VERSION_OR_HASH) s = true <->
  exists p t, s = p ++ name ++ "@"%char :: t /\ version_or_hash_start t.
Proof.
  rewrite search_chars_iff. unfold version_or_hash_start, VERSION_OR_HASH. split.
  - intros [p [m [t [Es H]]]].
    apply matches_seq_inv in H. destruct H as [l [m2 [E [Hl H]]]].
    apply matches_lit in Hl. subst.
    exists p, (m2 ++ t). split; [repeat rewrite <- app_assoc; reflexivity |].
    apply matches_or_inv in H. destruct H as [Hv | Hh].
    + left. apply matches_version_tag in Hv. destruct Hv as [d [u [-> Hd]]].
      exists d, (u ++ t). split; [reflexivity | exact Hd].
    + right. apply matches_times_class in Hh. destruct Hh as [Hlen Hhex].
      exists m2, t. repeat split; assumption.
  - intros [p [t [Es [[d [u [Et Hd]]] | [h [u [Et [Hlen Hhex]]]]]]]]; subst.
    + exists p, ((name ++ ["@"%char]) ++ ["v"%char; d]), u.
      split; [repeat rewrite <- app_assoc; reflexivity |].
      constructor; [now apply matches_lit |].
      apply m_or_l. now apply version_tag_matches.
    + exists p, ((name ++ ["@"%char]) ++ h), u.
      split; [repeat rewrite <- app_assoc; reflexivity |].
      constructor; [now apply matches_lit |].
      apply m_or_r. apply (proj2 (matches_times_class is_hex 40 h)). split; assumption.
Qed.

(** X19. The patterns of the cache check and of the credentials check are
    found in a text exactly when it contains the name of the action, [@],
    and then [v] with a digit or 40 digits of [a-f0-9]: a reference to a
    branch is not found, and the text around the reference is not looked
    at. *)
Theorem action_patterns_iff (s : list ascii) :
  (search_chars CACHE_ACTION_REGEX s = true <->
   action_reference "actions/cache" s) /\
  (search_chars CONFIGURE_AWS_CREDS_ACTION_REGEX s = true <->
   action_reference "aws-actions/configure-aws-credentials" s).
Proof.
  split.
  - exact (action_pattern_iff (chars "actions/cache") s).
  - exact (action_pattern_iff (chars "aws-actions/configure-aws-credentials") s).
Qed.

(** X20. The pattern of the script-injection check is found in a text
    exactly when the text contains the opening braces of an expression,
    then [github] and the closing braces later on the same line, with at
    least one character between [github] and the closing braces. *)
Theorem github_pattern_iff (s : list ascii) :
  search_chars DANGEROUS_GITHUB_CONTEXT_VARIABLE_REGEX s = true <->
  github_expression s.
Proof.
  rewrite search_chars_iff. unfold github_expression. split.
  - intros [p [m [t [Es H]]]]. unfold DANGEROUS_GITHUB_CONTEXT_VARIABLE_REGEX, Lit, Dot in H.
    apply matches_seq_inv in H. destruct H as [l1 [s1 [E1 [H1 H]]]].
    apply matches_seq_inv in H. destruct H as [a [s2 [E2 [Ha H]]]].
    apply matches_seq_inv in H. destruct H as [l2 [s3 [E3 [H2 H]]]].
    apply matches_seq_inv in H. destruct H as [b [l3 [E4 [Hb H3]]]].
    apply matches_lit in H1. apply matches_lit in H2. apply matches_lit in H3.
    apply matches_star_class in Ha. apply matches_plus_class in Hb.
    destruct Hb as [Hbn Hb]. subst.
    exists p, a, b, t. split; [| repeat split; assumption].
    repeat rewrite <- app_assoc. reflexivity.
  - intros [p [a [b [t [Es [Ha [Hbn Hb]]]]]]].
    exists p, (chars "${{" ++ a ++ chars "github" ++ b ++ chars "}}"), t.
    split; [subst s; repeat rewrite <- app_assoc; reflexivity |].
    unfold DANGEROUS_GITHUB_CONTEXT_VARIABLE_REGEX, Lit, Dot.
    constructor; [now apply matches_lit |].
    constructor; [now apply matches_star_class |].
    constructor; [now apply matches_lit |].
    constructor; [apply matches_plus_class; split; assumption | now apply matches_lit].
Qed.

(** X21. The pattern of the pull-request check is found in a text exactly
    when the text contains [gh pr create], or [gh pr review] with
    [--approve] later on the same line. *)
Theorem pull_request_pattern_iff (s : list ascii) :
  search_chars GH_CLI_PR_APPROVAL_REGEX s = true <-> pull_request_command s.
Proof.
  rewrite search_chars_iff. unfold pull_request_command. split.
  - intros [p [m [t [Es H]]]]. unfold GH_CLI_PR_APPROVAL_REGEX, Lit, Dot in H.
    apply matches_seq_inv in H. destruct H as [l1 [s1 [E1 [H1 H]]]].
    apply matches_lit in H1. apply matches_or_inv in H. destruct H as [Hr | Hc].
    + right.
      apply matches_seq_inv in Hr. destruct Hr as [l2 [s2 [E2 [H2 Hr]]]].
      apply matches_seq_inv in Hr. destruct Hr as [a [l3 [E3 [Ha H3]]]].
      apply matches_lit in H2. apply matches_lit in H3.
      apply matches_star_class in Ha. subst.
      exists p, a, t. split; [| exact Ha].
      change (chars "gh pr review") with (chars "gh pr " ++ chars "review").
      repeat rewrite <- app_assoc. reflexivity.
    + left.
      apply matches_seq_inv in Hc. destruct Hc as [l2 [rest [E2 [H2 _]]]].
      apply matches_lit in H2. subst.
      exists p, (rest ++ t).
      change (chars "gh pr create") with (chars "gh pr " ++ chars "create").
      repeat rewrite <- app_assoc. reflexivity.
  - intros [[p [t Es]] | [p [a [t [Es Ha]]]]].
    + exists p, (chars "gh pr " ++ chars "create" ++ []), t.
      split; [subst s; rewrite app_nil_r; repeat rewrite <- app_assoc; reflexivity |].
      unfold GH_CLI_PR_APPROVAL_REGEX, Lit, Dot.
      constructor; [now apply matches_lit |].
      apply m_or_r. constructor; [now apply matches_lit | constructor].
    + exists p, (chars "gh pr " ++ chars "review" ++ a ++ chars "--approve"), t.
      split; [subst s; change (chars "gh pr review") with (chars "gh pr " ++ chars "review");
              repeat rewrite <- app_assoc; reflexivity |].
      unfold GH_CLI_PR_APPROVAL_REGEX, Lit, Dot.
      constructor; [now apply matches_lit |].
      apply m_or_l. constructor; [now apply matches_lit |].
      constructor; [now apply matches_star_class | now apply matches_lit].
Qed.

(** ** Well-formed documents *)

Lemma forallb_weaken {X : Type} (f g : X -> bool) (l : list X) :
  (forall x, f x = true -> g x = true) ->
  forallb f l = true -> forallb g l = true.
Proof.
  intros H Hf. rewrite forallb_forall in *. intros x Hx. exact (H x (Hf x Hx)).
Qed.

Lemma job_steps_ok_weaken (ok ok' : value -> bool) (j : value) :
  (forall step, ok step = true -> ok' step = true) ->
  job_steps_ok ok j = true -> job_steps_ok ok' j = true.
Proof.
  intros H. unfold job_steps_ok. destruct j as [| b | z | t | l | jd]; try discriminate.
  destruct (lookup "steps" jd) as [[| b | z | t | steps | sd] |]; try discriminate.
  apply forallb_weaken. exact H.
Qed.

Lemma jobs_steps_weaken (ok : value -> bool) (jl : list (string * value)) :
  forallb (fun kj => job_well_formed (snd kj)) jl = true ->
  (forall step, step_well_formed step = true -> ok step = true) ->
  forallb (fun kj => job_steps_ok ok (snd kj)) jl = true.
Proof.
  intros Hw H. revert Hw. apply forallb_weaken. intros [k j] Hj. cbn [snd] in *.
  unfold job_well_formed in Hj. apply andb_true_iff in Hj. destruct Hj as [Hj _].
  apply andb_true_iff in Hj. destruct Hj as [Hj _].
  exact (job_steps_ok_weaken step_well_formed ok j H Hj).
Qed.

Lemma step_well_formed_parts (step : value) :
  step_well_formed step = true ->
  is_mapping step = true /\ text_or_absent "uses" step = true /\
  text_or_absent "run" step = true /\ env_ok step = true /\
  credentials_step_ok false step = true.
Proof.
  unfold step_well_formed. intro H.
  apply andb_true_iff in H. destruct H as [H Hc].
  apply andb_true_iff in H. destruct H as [H He].
  apply andb_true_iff in H. destruct H as [Hu Hr].
  repeat split; try assumption.
  unfold text_or_absent in Hu. apply andb_true_iff in Hu. tauto.
Qed.

(** X22. Without verbosity the run returns a verdict on every well-formed
    document: one whose jobs are mappings with a sequence of steps, a
    [permissions] and a [strategy] of the data model, and whose steps are
    mappings with strings under [uses] and [run], a mapping under [env]
    and, when they use the credentials action, a mapping under [with]. *)
Theorem well_formed_document_gets_a_verdict (ign : list string) (iw : bool)
    (document : value) :
  well_formed document = true ->
  exists v, run_checks (__init__ ign iw false) document = Ok v.
Proof.
  intro Hwf. unfold well_formed in Hwf. apply andb_true_iff in Hwf.
  destruct Hwf as [Hs Hp].
  assert (Hshape := Hs). unfold jobs_shape in Hshape.
  destruct document as [| b | z | t | l | d]; try discriminate Hshape.
  destruct (lookup "jobs" d) as [[| b | z | t | l | jl] |] eqn:Hj; try discriminate Hshape.
  apply andb_true_iff in Hshape. destruct Hshape as [Hdist Hok].
  assert (Hjobs : getitem (VDict d) "jobs" = Ok (VDict jl)).
  { unfold getitem, subscript. rewrite Hj. reflexivity. }
  set (self := loaded ign iw false (VDict d) (VDict jl)).
  assert (Hmap : forallb (fun kj => is_mapping (snd kj)) jl = true).
  { revert Hok. apply forallb_weaken. intros [k j] H. cbn [snd] in *.
    unfold job_well_formed in H. apply andb_true_iff in H. destruct H as [_ H].
    unfold job_strategy_ok in H. apply andb_true_iff in H. tauto. }
  unfold run_checks.
  rewrite (run_checks_traced_init ign iw false (VDict d) (VDict jl) Hjobs).
  fold self. unfold self at 1. rewrite (gate_value ign iw false d jl Hj Hdist Hmap).
  destruct (has_field "name" (VDict d) && has_field "on" (VDict d) &&
            negb (existsb (fun kj => lacks_steps (snd kj)) jl)) eqn:Hopen;
    [| eexists; reflexivity].
  assert (Hon : exists o, getitem (action self) "on" = Ok o).
  { apply andb_true_iff in Hopen. destruct Hopen as [Hopen _].
    apply andb_true_iff in Hopen. destruct Hopen as [_ Hopen].
    unfold has_field in Hopen. cbn [field] in Hopen. unfold self, getitem, subscript.
    cbn [action loaded]. destruct (lookup "on" d) as [o |]; [| discriminate Hopen].
    exists o. reflexivity. }
  destruct Hon as [o Hon].
  destruct (pull_request_target_on self o Hon) as [bt [Ht _]].
  eexists. apply run_loop_returns; [apply incl_refl |].
  intros c Hc _. unfold returns. cbn in Hc.
  destruct Hc as [Hc | Hc].
  { subst c. eexists.
    exact (step_scan jl _ (text_or_absent "uses") _ Hdist
             (jobs_steps_weaken _ jl Hok (fun step H => proj1 (proj2 (step_well_formed_parts step H))))
             (fun step H => uses_step ACTION_WITH_VERSION_REGEX (Break false) step H
                              (or_intror eq_refl))). }
  destruct Hc as [Hc | Hc].
  { subst c. eexists.
    refine (step_scan jl _ _ unsecure_env Hdist
              (jobs_steps_weaken _ jl Hok _) (unsecure_commands_step self)).
    intros step H. cbn [verbose self loaded]. unfold named_if. cbn [negb orb].
    rewrite andb_true_r. exact (proj1 (proj2 (proj2 (proj2 (step_well_formed_parts step H))))). }
  destruct Hc as [Hc | Hc].
  { subst c. eexists.
    exact (step_scan jl _ (text_or_absent "uses") _ Hdist
             (jobs_steps_weaken _ jl Hok (fun step H => proj1 (proj2 (step_well_formed_parts step H))))
             (fun step H => uses_step CACHE_ACTION_REGEX (Next false) step H
                              (or_introl eq_refl))). }
  destruct Hc as [Hc | Hc].
  { subst c. eexists.
    refine (dangerous_write_permissions_value ign iw false d jl Hp Hdist _).
    revert Hok. apply forallb_weaken. intros [k j] H. cbn [snd] in *.
    unfold job_well_formed in H. apply andb_true_iff in H. destruct H as [H _].
    apply andb_true_iff in H. tauto. }
  destruct Hc as [Hc | Hc].
  { subst c. eexists.
    exact (step_scan jl _ is_mapping _ Hdist
             (jobs_steps_weaken _ jl Hok (fun step H => proj1 (step_well_formed_parts step H)))
             (inline_script_step false)). }
  destruct Hc as [Hc | Hc].
  { subst c. exists bt. exact Ht. }
  destruct Hc as [Hc | Hc].
  { subst c. eexists.
    exact (step_scan jl _ (text_or_absent "run") _ Hdist
             (jobs_steps_weaken _ jl Hok
                (fun step H => proj1 (proj2 (proj2 (step_well_formed_parts step H)))))
             script_injection_step). }
  destruct Hc as [Hc | Hc].
  { subst c.
    assert (Hst : forallb (fun kj => job_strategy_ok (snd kj)) jl = true).
    { revert Hok. apply forallb_weaken. intros [k j] H. cbn [snd] in *.
      unfold job_well_formed in H. apply andb_true_iff in H. tauto. }
    destruct (job_scan jl _ job_strategy_ok
                (fun j => non_default_matrix j || non_default_runs_on j)
                Hdist Hst runners_job true) as [e [He _]].
    exists (finish e).
    exact (f_equal (fun r => e' <- r ;; Ok (finish e')) He). }
  destruct Hc as [Hc | Hc].
  { subst c. eexists.
    exact (step_scan jl _ (credentials_step_ok false) _ Hdist
             (jobs_steps_weaken _ jl Hok
                (fun step H => proj2 (proj2 (proj2 (proj2 (step_well_formed_parts step H))))))
             (credentials_step self)). }
  destruct Hc as [Hc | Hc].
  { subst c. eexists.
    refine (step_scan jl _ _ (field_matches GH_CLI_PR_APPROVAL_REGEX "run") Hdist
              (jobs_steps_weaken _ jl Hok _) (pull_request_step self)).
    intros step H. cbn [verbose self loaded]. unfold named_if. cbn [negb orb].
    rewrite andb_true_r. exact (proj1 (proj2 (proj2 (step_well_formed_parts step H)))). }
  contradiction.
Qed.

Lemma well_formed_document_gets_a_verdict_witness :
  exists v, run_checks (__init__ [] false false) document_oidc = Ok v.
Proof.
  apply (well_formed_document_gets_a_verdict [] false document_oidc).
  vm_compute. reflexivity.
Defined.
